(** * Arkanoid: the simulation tick and the phase machine of
      [src/components/ArkanoidGame.tsx], embedded as pure state passing.

    Numbers.  A JavaScript [number] that holds a coordinate or a velocity is
    modelled by an exact rational ([Q]); the counters [score], [lives] and
    [points] only ever hold integers and are modelled by [Z].  Numeric
    equalities on coordinates are stated with [==] ([Qeq]); "unchanged" is
    stated with Leibniz equality of the records.

    The JavaScript runtime.  [Math.sin], [Math.cos], [Math.sqrt] and
    [Math.PI] are taken as an interface ([JSMath]); every theorem holds for
    every implementation of it.  [Math.abs] is exact and is [Qabs].  Each
    call of [Math.random()] is an input of the event that makes it.

    React state.  [gameState], [score] and [lives] are fields of the game
    record; a [setX] call is the assignment of the field, in program order,
    and the updater passed to [setLives] runs at the call.

    Two readings of a frame.  [update] is a function of the state it is
    called on and reads [gameState] from it; [step] and [run] make a frame
    a call of this [update], which is the tick the functions of the file
    implement.  The component as it is mounted schedules one loop only,
    the first render's, whose [update] keeps seeing the first render's
    [gameState]; [mountedStep] and [mountedRun] model that loop.  Every
    state of a mounted run is a state of a run ([mountedRun_is_run]), so
    what holds in every state of a run holds in the component. *)

From Stdlib Require Import QArith Qabs Lqa.
From stdpp Require Import gmap strings list.

Local Open Scope Q_scope.

(** ** Comparisons of the source, as booleans *)

(** [a < b] of the source ([a > b] is [Qltb b a]). *)
Definition Qltb (a b : Q) : bool := negb (Qle_bool b a).

(** ** Game constants *)

Definition CANVAS_WIDTH : Q := 800.
Definition CANVAS_HEIGHT : Q := 600.
Definition PADDLE_WIDTH : Q := 120.
Definition PADDLE_HEIGHT : Q := 15.
Definition BALL_RADIUS : Q := 8.
Definition BRICK_ROWS : nat := 6.
Definition BRICK_COLS : nat := 10.
Definition BRICK_WIDTH : Q := 70.
Definition BRICK_HEIGHT : Q := 25.
Definition BRICK_PADDING : Q := 10.
Definition BRICK_OFFSET_TOP : Q := 60.
Definition BRICK_OFFSET_LEFT : Q := 35.

(** ** Data model *)

Module Brick.
Record t : Type := mk {
  x : Q;
  y : Q;
  width : Q;
  height : Q;
  color : string;
  active : bool;
  points : Z
}.

Definition set_active (a : bool) (b : t) : t :=
  mk (x b) (y b) (width b) (height b) (color b) a (points b).
End Brick.

Module Ball.
Record t : Type := mk {
  x : Q;
  y : Q;
  dx : Q;
  dy : Q;
  radius : Q
}.

Definition set_x (v : Q) (b : t) : t := mk v (y b) (dx b) (dy b) (radius b).
Definition set_y (v : Q) (b : t) : t := mk (x b) v (dx b) (dy b) (radius b).
Definition set_dx (v : Q) (b : t) : t := mk (x b) (y b) v (dy b) (radius b).
Definition set_dy (v : Q) (b : t) : t := mk (x b) (y b) (dx b) v (radius b).

(** [dx² + dy²], the square of the speed. *)
Definition speed2 (b : t) : Q := dx b * dx b + dy b * dy b.
End Ball.

Module Paddle.
Record t : Type := mk {
  x : Q;
  y : Q;
  width : Q;
  height : Q;
  speed : Q
}.

Definition set_x (v : Q) (p : t) : t := mk v (y p) (width p) (height p) (speed p).
End Paddle.

Inductive GameState : Type := ready | playing | paused | gameOver | win.

Global Instance GameState_eq_dec : EqDecision GameState.
Proof. solve_decision. Defined.

(** The component's state: the three [useState] cells and the four
    [useRef] cells the simulation reads and writes. *)
Record Game : Type := mkGame {
  gameState : GameState;
  score : Z;
  lives : Z;
  keysPressed : gmap string bool;
  paddle : Paddle.t;
  ball : Ball.t;
  bricks : list Brick.t
}.

Definition setGameState (st : GameState) (g : Game) : Game :=
  mkGame st (score g) (lives g) (keysPressed g) (paddle g) (ball g) (bricks g).
Definition setScore (v : Z) (g : Game) : Game :=
  mkGame (gameState g) v (lives g) (keysPressed g) (paddle g) (ball g) (bricks g).
Definition setLives (v : Z) (g : Game) : Game :=
  mkGame (gameState g) (score g) v (keysPressed g) (paddle g) (ball g) (bricks g).
Definition setKeys (k : gmap string bool) (g : Game) : Game :=
  mkGame (gameState g) (score g) (lives g) k (paddle g) (ball g) (bricks g).
Definition setPaddle (p : Paddle.t) (g : Game) : Game :=
  mkGame (gameState g) (score g) (lives g) (keysPressed g) p (ball g) (bricks g).
Definition setBall (b : Ball.t) (g : Game) : Game :=
  mkGame (gameState g) (score g) (lives g) (keysPressed g) (paddle g) b (bricks g).
Definition setBricks (bs : list Brick.t) (g : Game) : Game :=
  mkGame (gameState g) (score g) (lives g) (keysPressed g) (paddle g) (ball g) bs.

(** [keysPressed.current[k]] in a condition: a missing key is falsy. *)
Definition held (k : gmap string bool) (key : string) : bool :=
  default false (k !! key).

Global Arguments held : simpl never.
Global Strategy opaque [held].

(** ** Construction and reset *)

Definition colors : list string :=
  ["#FF6B6B"; "#4ECDC4"; "#45B7D1"; "#FFA07A"; "#98D8C8"; "#F7DC6F"]%string.

Definition newBrick (row col : nat) : Brick.t :=
  Brick.mk
    (inject_Z (Z.of_nat col) * (BRICK_WIDTH + BRICK_PADDING) + BRICK_OFFSET_LEFT)
    (inject_Z (Z.of_nat row) * (BRICK_HEIGHT + BRICK_PADDING) + BRICK_OFFSET_TOP)
    BRICK_WIDTH
    BRICK_HEIGHT
    (nth (row mod length colors) colors ""%string)
    true
    ((Z.of_nat BRICK_ROWS - Z.of_nat row) * 10)%Z.

(** The two nested loops of [initBricks]: rows outside, columns inside. *)
Definition initBricks : list Brick.t :=
  flat_map (fun row => map (newBrick row) (seq 0 BRICK_COLS)) (seq 0 BRICK_ROWS).

Definition resetBall (rnd : Q) : Ball.t :=
  Ball.mk
    (CANVAS_WIDTH / 2)
    (CANVAS_HEIGHT / 2)
    (4 * (if Qltb 0.5 rnd then 1 else -1))
    (-4)
    BALL_RADIUS.

Definition resetGame (rnd : Q) (g : Game) : Game :=
  let g := setScore 0%Z g in
  let g := setLives 3%Z g in
  let g := setBricks initBricks g in
  let g := setBall (resetBall rnd) g in
  let g := setPaddle (Paddle.set_x (CANVAS_WIDTH / 2 - PADDLE_WIDTH / 2) (paddle g)) g in
  setGameState ready g.

(** The values of the [useState] and [useRef] initialisers, with the brick
    grid built by the mount effect, which runs [initBricks] before the
    first [update]. *)
Definition initialPaddle : Paddle.t :=
  Paddle.mk (CANVAS_WIDTH / 2 - PADDLE_WIDTH / 2) (CANVAS_HEIGHT - 40)
            PADDLE_WIDTH PADDLE_HEIGHT 8.

Definition initialBall : Ball.t :=
  Ball.mk (CANVAS_WIDTH / 2) (CANVAS_HEIGHT / 2) 4 (-4) BALL_RADIUS.

Definition initialGame : Game :=
  mkGame ready 0%Z 3%Z ∅ initialPaddle initialBall initBricks.

(** ** The runtime's math library *)

Class JSMath : Type := {
  Math_PI : Q;
  Math_sin : Q -> Q;
  Math_cos : Q -> Q;
  Math_sqrt : Q -> Q
}.

(** ** Collision detection *)

(** The overlap test of [checkBallBrickCollision]. *)
Definition overlapsBrick (b : Ball.t) (brick : Brick.t) : bool :=
  Qltb (Brick.x brick) (Ball.x b + Ball.radius b) &&
  Qltb (Ball.x b - Ball.radius b) (Brick.x brick + Brick.width brick) &&
  Qltb (Brick.y brick) (Ball.y b + Ball.radius b) &&
  Qltb (Ball.y b - Ball.radius b) (Brick.y brick + Brick.height brick).

(** "Determine which side of the brick was hit" and "Reverse ball direction
    based on collision side". *)
Definition bounceOffBrick (b : Ball.t) (brick : Brick.t) : Ball.t :=
  let ballCenterX := Ball.x b in
  let ballCenterY := Ball.y b in
  let brickCenterX := Brick.x brick + Brick.width brick / 2 in
  let brickCenterY := Brick.y brick + Brick.height brick / 2 in
  let dx := ballCenterX - brickCenterX in
  let dy := ballCenterY - brickCenterY in
  let width := (Brick.width brick + Ball.radius b * 2) / 2 in
  let height := (Brick.height brick + Ball.radius b * 2) / 2 in
  let crossWidth := width * dy in
  let crossHeight := height * dx in
  if Qltb (Qabs crossHeight) (Qabs crossWidth)
  then Ball.set_dy (- Ball.dy b) b
  else Ball.set_dx (- Ball.dx b) b.

(** The [for] loop of [checkBallBrickCollision] from the current index on:
    the ball, the score and the remaining bricks go in, and come out as the
    loop leaves them.  The first active overlapping brick ends the loop
    ([break]). *)
Fixpoint brickLoop (b : Ball.t) (sc : Z) (bs : list Brick.t)
  : Ball.t * Z * list Brick.t :=
  match bs with
  | [] => (b, sc, [])
  | brick :: rest =>
      if Brick.active brick && overlapsBrick b brick
      then (bounceOffBrick b brick,
            (sc + Brick.points brick)%Z,
            Brick.set_active false brick :: rest)
      else let '(b', sc', rest') := brickLoop b sc rest in
           (b', sc', brick :: rest')
  end.

Definition checkBallBrickCollision (g : Game) : Game :=
  let '(b, sc, bs) := brickLoop (ball g) (score g) (bricks g) in
  setBricks bs (setScore sc (setBall b g)).

(** The overlap test of [checkBallPaddleCollision]. *)
Definition overlapsPaddle (b : Ball.t) (p : Paddle.t) : bool :=
  Qltb (Paddle.x p) (Ball.x b + Ball.radius b) &&
  Qltb (Ball.x b - Ball.radius b) (Paddle.x p + Paddle.width p) &&
  Qltb (Paddle.y p) (Ball.y b + Ball.radius b) &&
  Qltb (Ball.y b - Ball.radius b) (Paddle.y p + Paddle.height p).

(** "Calculate where the ball hit the paddle (0 = left edge, 1 = right edge)" *)
Definition hitPosition (b : Ball.t) (p : Paddle.t) : Q :=
  (Ball.x b - Paddle.x p) / Paddle.width p.

Section Engine.
Context {M : JSMath}.

Definition bounceOffPaddle (b : Ball.t) (p : Paddle.t) : Ball.t :=
  let angle := (hitPosition b p - 0.5) * Math_PI * 0.6 in
  let speed := Math_sqrt (Ball.dx b * Ball.dx b + Ball.dy b * Ball.dy b) in
  let b := Ball.set_dx (Math_sin angle * speed) b in
  let b := Ball.set_dy (- Qabs (Math_cos angle * speed)) b in
  Ball.set_y (Paddle.y p - Ball.radius b) b.

Definition checkBallPaddleCollision (g : Game) : Game :=
  if overlapsPaddle (ball g) (paddle g)
  then setBall (bounceOffPaddle (ball g) (paddle g)) g
  else g.

(** ** The tick, block by block *)

(** "Move ball" *)
Definition movedBall (b : Ball.t) : Ball.t :=
  let b := Ball.set_x (Ball.x b + Ball.dx b) b in
  Ball.set_y (Ball.y b + Ball.dy b) b.

Definition moveBall (g : Game) : Game := setBall (movedBall (ball g)) g.

(** "Ball collision with walls" *)
Definition wallReflect (b : Ball.t) : Ball.t :=
  let b := if Qltb CANVAS_WIDTH (Ball.x b + Ball.radius b)
              || Qltb (Ball.x b - Ball.radius b) 0
           then Ball.set_dx (- Ball.dx b) b else b in
  if Qltb (Ball.y b - Ball.radius b) 0
  then Ball.set_dy (- Ball.dy b) b else b.

Definition wallCollision (g : Game) : Game := setBall (wallReflect (ball g)) g.

(** The test of "Ball falls below paddle". *)
Definition fellBelow (b : Ball.t) : bool :=
  Qltb CANVAS_HEIGHT (Ball.y b - Ball.radius b).

(** "Ball falls below paddle": the updater given to [setLives]. *)
Definition ballFalls (rnd : Q) (g : Game) : Game :=
  if fellBelow (ball g)
  then
    let newLives := (lives g - 1)%Z in
    let g := if (newLives <=? 0)%Z
             then setGameState gameOver g
             else setGameState ready (setBall (resetBall rnd) g) in
    setLives newLives g
  else g.

(** "Move paddle" *)
Definition slidPaddle (k : gmap string bool) (p : Paddle.t) : Paddle.t :=
  let p := if held k "ArrowLeft" || held k "a"
           then Paddle.set_x (Paddle.x p - Paddle.speed p) p else p in
  if held k "ArrowRight" || held k "d"
  then Paddle.set_x (Paddle.x p + Paddle.speed p) p else p.

Definition movePaddle (g : Game) : Game :=
  setPaddle (slidPaddle (keysPressed g) (paddle g)) g.

(** "Keep paddle in bounds" *)
Definition clampedPaddle (p : Paddle.t) : Paddle.t :=
  let p := if Qltb (Paddle.x p) 0 then Paddle.set_x 0 p else p in
  if Qltb CANVAS_WIDTH (Paddle.x p + Paddle.width p)
  then Paddle.set_x (CANVAS_WIDTH - Paddle.width p) p else p.

Definition keepPaddleInBounds (g : Game) : Game :=
  setPaddle (clampedPaddle (paddle g)) g.

(** "Check win condition" *)
Definition checkWin (g : Game) : Game :=
  let activeBricks := length (List.filter Brick.active (bricks g)) in
  if (activeBricks =? 0)%nat then setGameState win g else g.

(** The state of the tick when "Check collisions" starts. *)
Definition beforeCollisions (rnd : Q) (g : Game) : Game :=
  keepPaddleInBounds (movePaddle (ballFalls rnd (wallCollision (moveBall g)))).

(** The state of the tick when the brick scan starts. *)
Definition beforeBricks (rnd : Q) (g : Game) : Game :=
  checkBallPaddleCollision (beforeCollisions rnd g).

(** [update]; [rnd] is what [Math.random()] returns if [resetBall] runs. *)
Definition update (rnd : Q) (g : Game) : Game :=
  match gameState g with
  | playing => checkWin (checkBallBrickCollision (beforeBricks rnd g))
  | _ => g
  end.

(** ** Keyboard handlers *)

Definition isSpace (key : string) : bool :=
  bool_decide (key = " "%string) || bool_decide (key = "Spacebar"%string).

Definition isRestart (key : string) : bool :=
  bool_decide (key = "r"%string) || bool_decide (key = "R"%string).

(** Both tests read the [gameState] of the render the handler belongs to,
    that is of [g]. *)
Definition handleKeyDown (key : string) (rnd : Q) (g : Game) : Game :=
  let g1 := setKeys (<[key := true]> (keysPressed g)) g in
  let g2 := if isSpace key
            then match gameState g with
                 | ready => setGameState playing g1
                 | playing => setGameState paused g1
                 | paused => setGameState playing g1
                 | _ => g1
                 end
            else g1 in
  if isRestart key
  then match gameState g with
       | gameOver | win => resetGame rnd g2
       | _ => g2
       end
  else g2.

Definition handleKeyUp (key : string) (g : Game) : Game :=
  setKeys (<[key := false]> (keysPressed g)) g.

(** ** Runs *)

(** What can happen to the component: an animation frame ([gameLoop]
    calls [update]; [render] only reads), a key going down, a key going
    up.  An event carries the [Math.random()] sample it may consume.
    In [step] the frame calls [update] on the current state, phase
    included. *)
Inductive Event : Type :=
| Frame (rnd : Q)
| KeyDown (key : string) (rnd : Q)
| KeyUp (key : string).

Definition step (g : Game) (e : Event) : Game :=
  match e with
  | Frame rnd => update rnd g
  | KeyDown key rnd => handleKeyDown key rnd g
  | KeyUp key => handleKeyUp key g
  end.

Definition run (evs : list Event) (g : Game) : Game := fold_left step evs g.

End Engine.

(** ** Vocabulary of the statements *)

(** The test that ends the brick scan: the brick is active and overlaps. *)
Definition hits (b : Ball.t) (brick : Brick.t) : Prop :=
  Brick.active brick = true /\ overlapsBrick b brick = true.

Global Instance hits_dec b brick : Decision (hits b brick).
Proof. unfold hits. apply _. Defined.

(** The number the win check computes. *)
Definition activeBricks (g : Game) : nat :=
  length (List.filter Brick.active (bricks g)).

(** The phases a game in progress is in. *)
Definition livePhase (st : GameState) : bool :=
  match st with
  | ready | playing | paused => true
  | gameOver | win => false
  end.

(** The lowest edge of the brick grid: the bottom of the last row. *)
Definition gridBottom : Q :=
  inject_Z (Z.of_nat (BRICK_ROWS - 1)) * (BRICK_HEIGHT + BRICK_PADDING)
  + BRICK_OFFSET_TOP + BRICK_HEIGHT.

(** What every state of a run satisfies: the paddle keeps its shape and
    stays on the field, the ball keeps its radius, the bricks are the grid
    of [initBricks] up to their [active] flags, lives stay in range, and a
    game in progress has a life and an active brick left. *)
Record Inv (g : Game) : Prop := mkInv {
  inv_paddle_shape :
    Paddle.set_x (Paddle.x initialPaddle) (paddle g) = initialPaddle;
  inv_paddle_x : 0 <= Paddle.x (paddle g) <= CANVAS_WIDTH - PADDLE_WIDTH;
  inv_radius : Ball.radius (ball g) = BALL_RADIUS;
  inv_grid : map (Brick.set_active true) (bricks g) = initBricks;
  inv_lives : (0 <= lives g <= 3)%Z;
  inv_live_lives : livePhase (gameState g) = true -> (1 <= lives g)%Z;
  inv_live_bricks : livePhase (gameState g) = true -> activeBricks g <> 0%nat;
  inv_gameOver : gameState g = gameOver -> lives g = 0%Z
}.

(** The fall test of a tick, on the ball as "Move ball" and the wall
    reflection leave it. *)
Definition fallTick (g : Game) : bool :=
  fellBelow (ball (wallCollision (moveBall g))).

(** The part of the state the simulation owns: everything but the record
    of held keys. *)
Definition entities (g : Game)
  : GameState * Z * Z * Paddle.t * Ball.t * list Brick.t :=
  (gameState g, score g, lives g, paddle g, ball g, bricks g).

(** The events that are a restart command: [r] or [R] going down. *)
Definition isRestartEvent (e : Event) : bool :=
  match e with
  | KeyDown key _ => isRestart key
  | _ => false
  end.

(** The states the component can be in: those a run from the mounted
    component ends in. *)
Definition reachable {M : JSMath} (g : Game) : Prop :=
  exists evs, g = run evs initialGame.

(** ** Concrete runs *)

(** A rational stand-in for the runtime's functions, to run the model on
    concrete inputs: truncated series for [sin] and [cos], three Newton
    steps for [sqrt].  None of the runs below reaches a paddle bounce, so
    their states do not depend on it. *)
Definition seriesMath : JSMath := {|
  Math_PI := 355 / 113;
  Math_sin := fun a => a - a * a * a / 6 + a * a * a * a * a / 120;
  Math_cos := fun a => 1 - a * a / 2 + a * a * a * a / 24;
  Math_sqrt := fun a =>
    let s1 := (a + 1) / 2 in
    let s2 := (s1 + a / s1) / 2 in
    Qred ((s2 + a / s2) / 2)
|}.

(** [n] animation frames; the sample 0 makes a respawned ball go left. *)
Definition frames (n : nat) : list Event :=
  repeat (Frame 0) n.

(** Space starts the game and nothing else is pressed: the ball breaks one
    brick of the bottom row, comes down to the right of the paddle and is
    lost on frame 96. *)
Definition firstBall (n : nat) : list Event := KeyDown " " 0 :: frames n.

(** Frame 91 of the first ball: its lowest point touches the bottom edge. *)
Definition nearBottom : Game := run (M := seriesMath) (firstBall 91) initialGame.

(** Frame 95 of the first ball: the next frame loses the first life. *)
Definition aboutToFall : Game := run (M := seriesMath) (firstBall 95) initialGame.

(** Two balls lost the same way, then frame [n] of the third ball, which
    is lost on its frame 112. *)
Definition thirdBall (n : nat) : list Event :=
  firstBall 96 ++ firstBall 96 ++ firstBall n.

Definition lastLife : Game := run (M := seriesMath) (thirdBall 111) initialGame.
Definition gameIsOver : Game := run (M := seriesMath) (thirdBall 112) initialGame.

(** The first ball again, with the paddle driven right for 33 frames: on
    frame 82 the ball clips the right end of the paddle. *)
Definition clipsPaddle : Game :=
  run (M := seriesMath)
      (KeyDown " " 0 :: KeyDown "ArrowRight" 0 :: frames 33
       ++ KeyUp "ArrowRight" :: frames 48) initialGame.

(** A ball that the next frame puts over the gap between the first two
    bricks of the bottom row, overlapping both. *)
Definition overTheGap : Game :=
  setBall (Ball.mk 106 266 4 (-4) BALL_RADIUS) (setGameState playing initialGame).

(** What may follow the loss of the last life: frames, the space bar, the
    arrow keys. *)
Definition afterTheEnd : list Event :=
  [Frame 0; KeyDown " " 0; KeyDown "ArrowLeft" 0; Frame 0; Frame 1;
   KeyUp "ArrowLeft"; KeyDown "d" 0; Frame 0].

(** ** Vocabulary of the further properties *)

(** The points still to be won: the sum of the points of the active
    bricks. *)
Definition activePoints (bs : list Brick.t) : Z :=
  foldr (fun br acc => if Brick.active br then (Brick.points br + acc)%Z else acc)
        0%Z bs.

(** The points of the full grid. *)
Definition totalPoints : Z := activePoints initBricks.

(** The rectangles of two bricks have no point in common. *)
Definition apart (a b : Brick.t) : bool :=
  Qle_bool (Brick.x a + Brick.width a) (Brick.x b)
  || Qle_bool (Brick.x b + Brick.width b) (Brick.x a)
  || Qle_bool (Brick.y a + Brick.height a) (Brick.y b)
  || Qle_bool (Brick.y b + Brick.height b) (Brick.y a).

(** What the score and the [win] phase satisfy in every state of a run. *)
Record ScoreInv (g : Game) : Prop := mkScoreInv {
  sinv_points : (score g + activePoints (bricks g))%Z = totalPoints;
  sinv_win_bricks : gameState g = win -> activeBricks g = 0%nat;
  sinv_win_lives : gameState g = win -> (1 <= lives g)%Z
}.

(** Frame 20 of the first ball: on its way down, between the grid and the
    paddle. *)
Definition midFlight : Game := run (M := seriesMath) (firstBall 20) initialGame.

(** The component after the space bar: the phase is [playing], nothing has
    moved. *)
Definition justStarted : Game := handleKeyDown " " 0 initialGame.

(** The component after the space bar and the right arrow going down. *)
Definition rightHeld : Game := handleKeyDown "ArrowRight" 0 justStarted.

(** A state of the [playing] phase with the ball coming down beside the
    right end of the paddle: ball at (724, 552) with velocity (4, 4) and
    radius 8, paddle at [x = 604], one brick of the bottom row gone. *)
Definition besideThePaddle : Game :=
  mkGame playing 10%Z 3%Z ∅
         (Paddle.mk 604 (CANVAS_HEIGHT - 40) PADDLE_WIDTH PADDLE_HEIGHT 8)
         (Ball.mk 724 552 4 4 BALL_RADIUS)
         (<[55%nat := Brick.set_active false (newBrick 5 5)]> initBricks).

(** ** The loop of the mounted component *)

(** [update] as the closure of one render: [seen] is the [gameState] of the
    render that made the closure, the state is the current content of the
    refs and cells. *)
Definition updateSeeing {M : JSMath} (seen : GameState) (rnd : Q) (g : Game)
  : Game :=
  match seen with
  | playing => checkWin (checkBallBrickCollision (beforeBricks rnd g))
  | _ => g
  end.

Definition isFrame (e : Event) : bool :=
  match e with
  | Frame _ => true
  | _ => false
  end.

(** The events as the mounted component handles them.  The mount effect
    starts [gameLoop] once, [gameLoop] re-schedules itself, and the effect
    that would start it again in the [playing] phase needs
    [animationFrameRef.current] unset, which it is not after the first
    frame: every frame runs the first render's [update], which sees
    [gameState] as [ready].  The key handlers are registered anew whenever
    [gameState] changes and see the current phase. *)
Definition mountedStep {M : JSMath} (g : Game) (e : Event) : Game :=
  match e with
  | Frame rnd => updateSeeing ready rnd g
  | KeyDown key rnd => handleKeyDown key rnd g
  | KeyUp key => handleKeyUp key g
  end.

Definition mountedRun {M : JSMath} (evs : list Event) (g : Game) : Game :=
  fold_left mountedStep evs g.

(** One brick left, the first of the bottom row, the score at 2090, and the
    ball about to reach that brick. *)
Definition lastBrickLeft : Game :=
  mkGame playing 2090%Z 3%Z ∅ initialPaddle
         (Ball.mk 106 266 4 (-4) BALL_RADIUS)
         (<[50%nat := newBrick 5 0]> (map (Brick.set_active false) initBricks)).

(** The state of the tick of [clipsPaddle] when the collision checks
    start. *)
Definition atThePaddle : Game := beforeCollisions 0 clipsPaddle.

(** ** Comparisons *)

Lemma Qltb_lt a b : Qltb a b = true <-> a < b.
Proof.
  unfold Qltb. rewrite negb_true_iff, <- not_true_iff_false, Qle_bool_iff.
  split; [apply Qnot_le_lt | apply Qlt_not_le].
Qed.

Lemma Qltb_ge a b : Qltb a b = false <-> b <= a.
Proof.
  unfold Qltb. rewrite negb_false_iff. apply Qle_bool_iff.
Qed.

(** ** What each block of the tick leaves alone *)

Ltac block_field :=
  intros;
  repeat match goal with
         | |- context [brickLoop ?b ?sc ?bs] =>
             destruct (brickLoop b sc bs) as [[? ?] ?]
         | |- context [if ?c then _ else _] => destruct c
         end;
  reflexivity.

Section Fields.
Context {M : JSMath}.

Lemma gameState_moveBall g : gameState (moveBall g) = gameState g.
Proof. reflexivity. Qed.
Lemma score_moveBall g : score (moveBall g) = score g.
Proof. reflexivity. Qed.
Lemma lives_moveBall g : lives (moveBall g) = lives g.
Proof. reflexivity. Qed.
Lemma keysPressed_moveBall g : keysPressed (moveBall g) = keysPressed g.
Proof. reflexivity. Qed.
Lemma paddle_moveBall g : paddle (moveBall g) = paddle g.
Proof. reflexivity. Qed.
Lemma bricks_moveBall g : bricks (moveBall g) = bricks g.
Proof. reflexivity. Qed.

Lemma gameState_wallCollision g : gameState (wallCollision g) = gameState g.
Proof. reflexivity. Qed.
Lemma score_wallCollision g : score (wallCollision g) = score g.
Proof. reflexivity. Qed.
Lemma lives_wallCollision g : lives (wallCollision g) = lives g.
Proof. reflexivity. Qed.
Lemma keysPressed_wallCollision g : keysPressed (wallCollision g) = keysPressed g.
Proof. reflexivity. Qed.
Lemma paddle_wallCollision g : paddle (wallCollision g) = paddle g.
Proof. reflexivity. Qed.
Lemma bricks_wallCollision g : bricks (wallCollision g) = bricks g.
Proof. reflexivity. Qed.

Lemma score_ballFalls rnd g : score (ballFalls rnd g) = score g.
Proof. unfold ballFalls. block_field. Qed.
Lemma keysPressed_ballFalls rnd g : keysPressed (ballFalls rnd g) = keysPressed g.
Proof. unfold ballFalls. block_field. Qed.
Lemma paddle_ballFalls rnd g : paddle (ballFalls rnd g) = paddle g.
Proof. unfold ballFalls. block_field. Qed.
Lemma bricks_ballFalls rnd g : bricks (ballFalls rnd g) = bricks g.
Proof. unfold ballFalls. block_field. Qed.

Lemma ball_moveBall g : ball (moveBall g) = movedBall (ball g).
Proof. reflexivity. Qed.
Lemma ball_wallCollision g : ball (wallCollision g) = wallReflect (ball g).
Proof. reflexivity. Qed.
Lemma paddle_movePaddle g :
  paddle (movePaddle g) = slidPaddle (keysPressed g) (paddle g).
Proof. reflexivity. Qed.
Lemma paddle_keepPaddleInBounds g :
  paddle (keepPaddleInBounds g) = clampedPaddle (paddle g).
Proof. reflexivity. Qed.

Lemma gameState_movePaddle g : gameState (movePaddle g) = gameState g.
Proof. reflexivity. Qed.
Lemma score_movePaddle g : score (movePaddle g) = score g.
Proof. reflexivity. Qed.
Lemma lives_movePaddle g : lives (movePaddle g) = lives g.
Proof. reflexivity. Qed.
Lemma keysPressed_movePaddle g : keysPressed (movePaddle g) = keysPressed g.
Proof. reflexivity. Qed.
Lemma ball_movePaddle g : ball (movePaddle g) = ball g.
Proof. reflexivity. Qed.
Lemma bricks_movePaddle g : bricks (movePaddle g) = bricks g.
Proof. reflexivity. Qed.

Lemma gameState_keepPaddleInBounds g :
  gameState (keepPaddleInBounds g) = gameState g.
Proof. reflexivity. Qed.
Lemma score_keepPaddleInBounds g : score (keepPaddleInBounds g) = score g.
Proof. reflexivity. Qed.
Lemma lives_keepPaddleInBounds g : lives (keepPaddleInBounds g) = lives g.
Proof. reflexivity. Qed.
Lemma keysPressed_keepPaddleInBounds g :
  keysPressed (keepPaddleInBounds g) = keysPressed g.
Proof. reflexivity. Qed.
Lemma ball_keepPaddleInBounds g : ball (keepPaddleInBounds g) = ball g.
Proof. reflexivity. Qed.
Lemma bricks_keepPaddleInBounds g : bricks (keepPaddleInBounds g) = bricks g.
Proof. reflexivity. Qed.

Lemma gameState_checkBallPaddleCollision g :
  gameState (checkBallPaddleCollision g) = gameState g.
Proof. unfold checkBallPaddleCollision. block_field. Qed.
Lemma score_checkBallPaddleCollision g :
  score (checkBallPaddleCollision g) = score g.
Proof. unfold checkBallPaddleCollision. block_field. Qed.
Lemma lives_checkBallPaddleCollision g :
  lives (checkBallPaddleCollision g) = lives g.
Proof. unfold checkBallPaddleCollision. block_field. Qed.
Lemma keysPressed_checkBallPaddleCollision g :
  keysPressed (checkBallPaddleCollision g) = keysPressed g.
Proof. unfold checkBallPaddleCollision. block_field. Qed.
Lemma paddle_checkBallPaddleCollision g :
  paddle (checkBallPaddleCollision g) = paddle g.
Proof. unfold checkBallPaddleCollision. block_field. Qed.
Lemma bricks_checkBallPaddleCollision g :
  bricks (checkBallPaddleCollision g) = bricks g.
Proof. unfold checkBallPaddleCollision. block_field. Qed.

Lemma gameState_checkBallBrickCollision g :
  gameState (checkBallBrickCollision g) = gameState g.
Proof. unfold checkBallBrickCollision. block_field. Qed.
Lemma lives_checkBallBrickCollision g :
  lives (checkBallBrickCollision g) = lives g.
Proof. unfold checkBallBrickCollision. block_field. Qed.
Lemma keysPressed_checkBallBrickCollision g :
  keysPressed (checkBallBrickCollision g) = keysPressed g.
Proof. unfold checkBallBrickCollision. block_field. Qed.
Lemma paddle_checkBallBrickCollision g :
  paddle (checkBallBrickCollision g) = paddle g.
Proof. unfold checkBallBrickCollision. block_field. Qed.

Lemma score_checkWin g : score (checkWin g) = score g.
Proof. unfold checkWin. block_field. Qed.
Lemma lives_checkWin g : lives (checkWin g) = lives g.
Proof. unfold checkWin. block_field. Qed.
Lemma keysPressed_checkWin g : keysPressed (checkWin g) = keysPressed g.
Proof. unfold checkWin. block_field. Qed.
Lemma paddle_checkWin g : paddle (checkWin g) = paddle g.
Proof. unfold checkWin. block_field. Qed.
Lemma ball_checkWin g : ball (checkWin g) = ball g.
Proof. unfold checkWin. block_field. Qed.
Lemma bricks_checkWin g : bricks (checkWin g) = bricks g.
Proof. unfold checkWin. block_field. Qed.

End Fields.

Create Rewrite HintDb tick.

#[export] Hint Rewrite
  gameState_moveBall score_moveBall lives_moveBall keysPressed_moveBall
  paddle_moveBall bricks_moveBall
  gameState_wallCollision score_wallCollision lives_wallCollision
  keysPressed_wallCollision paddle_wallCollision bricks_wallCollision
  score_ballFalls keysPressed_ballFalls paddle_ballFalls bricks_ballFalls
  ball_moveBall ball_wallCollision paddle_movePaddle paddle_keepPaddleInBounds
  gameState_movePaddle score_movePaddle lives_movePaddle keysPressed_movePaddle
  ball_movePaddle bricks_movePaddle
  gameState_keepPaddleInBounds score_keepPaddleInBounds lives_keepPaddleInBounds
  keysPressed_keepPaddleInBounds ball_keepPaddleInBounds
  bricks_keepPaddleInBounds
  @gameState_checkBallPaddleCollision @score_checkBallPaddleCollision
  @lives_checkBallPaddleCollision @keysPressed_checkBallPaddleCollision
  @paddle_checkBallPaddleCollision @bricks_checkBallPaddleCollision
  gameState_checkBallBrickCollision lives_checkBallBrickCollision
  keysPressed_checkBallBrickCollision paddle_checkBallBrickCollision
  score_checkWin lives_checkWin keysPressed_checkWin paddle_checkWin
  ball_checkWin bricks_checkWin : tick.

Section Theory.
Context {M : JSMath}.

Lemma fallTick_eq g :
  fallTick g =
  Qltb CANVAS_HEIGHT (Ball.y (ball g) + Ball.dy (ball g) - Ball.radius (ball g)).
Proof.
  unfold fallTick. rewrite ball_wallCollision, ball_moveBall.
  unfold fellBelow, wallReflect, movedBall.
  repeat case_match; reflexivity.
Qed.

Lemma update_playing rnd g :
  gameState g = playing ->
  update rnd g = checkWin (checkBallBrickCollision (beforeBricks rnd g)).
Proof. intros H. unfold update. now rewrite H. Qed.

Lemma update_not_playing rnd g : gameState g <> playing -> update rnd g = g.
Proof. intros H. unfold update. destruct (gameState g); congruence. Qed.

Lemma lives_ballFalls rnd g :
  lives (ballFalls rnd g) =
  if fellBelow (ball g) then (lives g - 1)%Z else lives g.
Proof. unfold ballFalls. destruct (fellBelow (ball g)); reflexivity. Qed.

Lemma lives_update rnd g :
  lives (update rnd g) =
  if bool_decide (gameState g = playing) && fallTick g
  then (lives g - 1)%Z else lives g.
Proof.
  unfold update, beforeBricks, beforeCollisions, fallTick.
  destruct (gameState g); try reflexivity.
  rewrite bool_decide_eq_true_2, andb_true_l by reflexivity.
  autorewrite with tick. rewrite lives_ballFalls.
  now autorewrite with tick.
Qed.

(** *** Bounces *)

Lemma speed2_wallCollision g :
  Ball.speed2 (ball (wallCollision g)) == Ball.speed2 (ball g).
Proof.
  rewrite ball_wallCollision. unfold wallReflect, Ball.speed2.
  repeat case_match; cbn [Ball.dx Ball.dy Ball.set_dx Ball.set_dy]; ring.
Qed.

Lemma speed2_bounceOffBrick b brick :
  Ball.speed2 (bounceOffBrick b brick) == Ball.speed2 b.
Proof.
  unfold bounceOffBrick, Ball.speed2.
  case_match; cbn [Ball.dx Ball.dy Ball.set_dx Ball.set_dy]; ring.
Qed.

Lemma speed2_brickLoop b sc bs :
  Ball.speed2 (brickLoop b sc bs).1.1 == Ball.speed2 b.
Proof.
  induction bs as [|brick rest IH]; cbn [brickLoop]; [reflexivity|].
  destruct (Brick.active brick && overlapsBrick b brick); cbn [fst snd].
  - apply speed2_bounceOffBrick.
  - destruct (brickLoop b sc rest) as [[b' sc'] rest']. exact IH.
Qed.

Lemma ball_checkBallBrickCollision g :
  ball (checkBallBrickCollision g) =
  (brickLoop (ball g) (score g) (bricks g)).1.1.
Proof.
  unfold checkBallBrickCollision.
  destruct (brickLoop (ball g) (score g) (bricks g)) as [[b sc] bs].
  reflexivity.
Qed.

Lemma score_checkBallBrickCollision g :
  score (checkBallBrickCollision g) =
  (brickLoop (ball g) (score g) (bricks g)).1.2.
Proof.
  unfold checkBallBrickCollision.
  destruct (brickLoop (ball g) (score g) (bricks g)) as [[b sc] bs].
  reflexivity.
Qed.

Lemma bricks_checkBallBrickCollision g :
  bricks (checkBallBrickCollision g) =
  (brickLoop (ball g) (score g) (bricks g)).2.
Proof.
  unfold checkBallBrickCollision.
  destruct (brickLoop (ball g) (score g) (bricks g)) as [[b sc] bs].
  reflexivity.
Qed.

(** *** The brick scan *)

Lemma brickLoop_find b sc bs :
  brickLoop b sc bs =
  match list_find (hits b) bs with
  | Some (i, brick) =>
      (bounceOffBrick b brick, (sc + Brick.points brick)%Z,
       <[i := Brick.set_active false brick]> bs)
  | None => (b, sc, bs)
  end.
Proof.
  induction bs as [|brick rest IH]; [reflexivity|].
  cbn [brickLoop list_find]. unfold list_find in *.
  destruct (decide (hits b brick)) as [[Ha Ho]|Hn].
  - rewrite Ha, Ho. reflexivity.
  - destruct (Brick.active brick && overlapsBrick b brick) eqn:E.
    + apply andb_prop in E. contradiction.
    + rewrite IH. clear IH.
      match goal with
      | |- context [prod_map S id <$> ?o] => destruct o as [[i br]|]
      end; reflexivity.
Qed.

Lemma brickLoop_miss b sc bs :
  Forall (fun y => ~ hits b y) bs -> brickLoop b sc bs = (b, sc, bs).
Proof.
  intros H. rewrite brickLoop_find.
  apply (list_find_None (hits b)) in H. now rewrite H.
Qed.

Lemma grid_brickLoop b sc bs :
  map (Brick.set_active true) (brickLoop b sc bs).2 =
  map (Brick.set_active true) bs.
Proof.
  induction bs as [|brick rest IH]; [reflexivity|].
  cbn [brickLoop].
  destruct (Brick.active brick && overlapsBrick b brick).
  - reflexivity.
  - destruct (brickLoop b sc rest) as [[b' sc'] rest'].
    simpl in *. now rewrite IH.
Qed.

Lemma filter_active_off i brick bs :
  bs !! i = Some brick -> Brick.active brick = true ->
  S (length (List.filter Brick.active (<[i := Brick.set_active false brick]> bs)))
  = length (List.filter Brick.active bs).
Proof.
  revert i. induction bs as [|y rest IH]; intros [|i] Hi Ha;
    simpl in *; try discriminate.
  - injection Hi as ->. now rewrite Ha.
  - destruct (Brick.active y); simpl; rewrite (IH i); auto.
Qed.

(** *** The fields of the state after a tick *)

Lemma paddle_update rnd g :
  gameState g = playing ->
  paddle (update rnd g) = clampedPaddle (slidPaddle (keysPressed g) (paddle g)).
Proof.
  intros H. rewrite (update_playing _ _ H).
  unfold beforeBricks, beforeCollisions. now autorewrite with tick.
Qed.

Lemma keysPressed_update rnd g : keysPressed (update rnd g) = keysPressed g.
Proof.
  unfold update, beforeBricks, beforeCollisions.
  destruct (gameState g); try reflexivity. now autorewrite with tick.
Qed.

Lemma gameState_ballFalls rnd g :
  gameState (ballFalls rnd g) =
  if fellBelow (ball g)
  then (if (lives g - 1 <=? 0)%Z then gameOver else ready)
  else gameState g.
Proof. unfold ballFalls. repeat case_match; reflexivity. Qed.

Lemma ball_ballFalls rnd g :
  ball (ballFalls rnd g) =
  if fellBelow (ball g) && negb (lives g - 1 <=? 0)%Z
  then resetBall rnd else ball g.
Proof.
  unfold ballFalls.
  destruct (fellBelow (ball g)), (lives g - 1 <=? 0)%Z; reflexivity.
Qed.

Lemma gameState_checkWin g :
  gameState (checkWin g) =
  if (activeBricks g =? 0)%nat then win else gameState g.
Proof. unfold checkWin, activeBricks. case_match; reflexivity. Qed.

Lemma activeBricks_checkWin g : activeBricks (checkWin g) = activeBricks g.
Proof. unfold activeBricks. now rewrite bricks_checkWin. Qed.

Lemma gameState_update rnd g :
  gameState g = playing ->
  gameState (update rnd g) =
  if (activeBricks (update rnd g) =? 0)%nat then win
  else if fallTick g
       then (if (lives g - 1 <=? 0)%Z then gameOver else ready)
       else playing.
Proof.
  intros H. rewrite (update_playing _ _ H).
  rewrite gameState_checkWin, activeBricks_checkWin.
  case_match; [reflexivity|].
  unfold beforeBricks, beforeCollisions. autorewrite with tick.
  rewrite gameState_ballFalls. unfold fallTick.
  autorewrite with tick. now rewrite H.
Qed.

Lemma bricks_update rnd g :
  gameState g = playing ->
  bricks (update rnd g) =
  (brickLoop (ball (beforeBricks rnd g)) (score g) (bricks g)).2.
Proof.
  intros H. rewrite (update_playing _ _ H).
  rewrite bricks_checkWin, bricks_checkBallBrickCollision.
  unfold beforeBricks at 2 3, beforeCollisions. now autorewrite with tick.
Qed.

Lemma score_update rnd g :
  gameState g = playing ->
  score (update rnd g) =
  (brickLoop (ball (beforeBricks rnd g)) (score g) (bricks g)).1.2.
Proof.
  intros H. rewrite (update_playing _ _ H).
  rewrite score_checkWin, score_checkBallBrickCollision.
  unfold beforeBricks at 2 3, beforeCollisions. now autorewrite with tick.
Qed.

Lemma ball_update rnd g :
  gameState g = playing ->
  ball (update rnd g) =
  (brickLoop (ball (beforeBricks rnd g)) (score g) (bricks g)).1.1.
Proof.
  intros H. rewrite (update_playing _ _ H).
  rewrite ball_checkWin, ball_checkBallBrickCollision.
  unfold beforeBricks at 2 3, beforeCollisions. now autorewrite with tick.
Qed.

(** *** The radius is constant *)

Lemma radius_brickLoop b sc bs :
  Ball.radius (brickLoop b sc bs).1.1 = Ball.radius b.
Proof.
  rewrite brickLoop_find.
  destruct (list_find (hits b) bs) as [[i brick]|]; [|reflexivity].
  cbn [fst snd]. unfold bounceOffBrick. case_match; reflexivity.
Qed.

Lemma radius_movedBall b : Ball.radius (movedBall b) = Ball.radius b.
Proof. reflexivity. Qed.

Lemma radius_wallReflect b : Ball.radius (wallReflect b) = Ball.radius b.
Proof. unfold wallReflect. repeat case_match; reflexivity. Qed.

Lemma radius_bounceOffPaddle b p :
  Ball.radius (bounceOffPaddle b p) = Ball.radius b.
Proof. reflexivity. Qed.

Lemma ball_checkBallPaddleCollision g :
  ball (checkBallPaddleCollision g) =
  if overlapsPaddle (ball g) (paddle g)
  then bounceOffPaddle (ball g) (paddle g) else ball g.
Proof. unfold checkBallPaddleCollision. case_match; reflexivity. Qed.

Lemma radius_beforeBricks rnd g :
  Ball.radius (ball g) = BALL_RADIUS ->
  Ball.radius (ball (beforeBricks rnd g)) = BALL_RADIUS.
Proof.
  intros H. unfold beforeBricks.
  assert (Hc : Ball.radius (ball (beforeCollisions rnd g)) = BALL_RADIUS).
  { unfold beforeCollisions. autorewrite with tick.
    rewrite ball_ballFalls. autorewrite with tick.
    case_match; [reflexivity|].
    now rewrite radius_wallReflect, radius_movedBall. }
  rewrite ball_checkBallPaddleCollision.
  case_match; [rewrite radius_bounceOffPaddle|]; exact Hc.
Qed.

Lemma radius_update rnd g :
  Ball.radius (ball g) = BALL_RADIUS ->
  Ball.radius (ball (update rnd g)) = BALL_RADIUS.
Proof.
  intros H. destruct (decide (gameState g = playing)) as [Hp|Hp].
  - rewrite (ball_update _ _ Hp), radius_brickLoop.
    now apply radius_beforeBricks.
  - now rewrite (update_not_playing _ _ Hp).
Qed.

(** *** The paddle stays on the field *)

Lemma clampedPaddle_range p :
  Paddle.width p <= CANVAS_WIDTH ->
  0 <= Paddle.x (clampedPaddle p) <= CANVAS_WIDTH - Paddle.width p.
Proof.
  intros Hw. unfold clampedPaddle.
  destruct (Qltb (Paddle.x p) 0) eqn:E0; simpl.
  - destruct (Qltb CANVAS_WIDTH (0 + Paddle.width p)) eqn:E1; simpl.
    + apply Qltb_lt in E1. lra.
    + apply Qltb_ge in E1. lra.
  - apply Qltb_ge in E0.
    destruct (Qltb CANVAS_WIDTH (Paddle.x p + Paddle.width p)) eqn:E1; simpl.
    + lra.
    + apply Qltb_ge in E1. lra.
Qed.

Lemma shape_clamped_slid k p :
  Paddle.set_x (Paddle.x initialPaddle) (clampedPaddle (slidPaddle k p)) =
  Paddle.set_x (Paddle.x initialPaddle) p.
Proof.
  unfold clampedPaddle, slidPaddle. repeat case_match; reflexivity.
Qed.

Lemma width_of_shape p :
  Paddle.set_x (Paddle.x initialPaddle) p = initialPaddle ->
  Paddle.y p = CANVAS_HEIGHT - 40 /\ Paddle.width p = PADDLE_WIDTH /\
  Paddle.height p = PADDLE_HEIGHT /\ Paddle.speed p = 8.
Proof.
  destruct p as [x y w h sp]. unfold Paddle.set_x, initialPaddle. simpl.
  intros H. injection H as -> -> -> ->. auto.
Qed.

Lemma width_slid k p : Paddle.width (slidPaddle k p) = Paddle.width p.
Proof. unfold slidPaddle. repeat case_match; reflexivity. Qed.

(** *** The invariant of runs *)

Lemma initBricks_active : map (Brick.set_active true) initBricks = initBricks.
Proof. vm_compute. reflexivity. Qed.

Lemma initBricks_count : length (List.filter Brick.active initBricks) = 60%nat.
Proof. vm_compute. reflexivity. Qed.

Lemma Inv_initialGame : Inv initialGame.
Proof.
  split; simpl; try reflexivity; try lia.
  - split; vm_compute; discriminate.
  - intros _. vm_compute. discriminate.
  - discriminate.
Qed.

Lemma Inv_resetGame rnd g : Inv g -> Inv (resetGame rnd g).
Proof.
  intros [Hs Hx Hr Hg Hl Hll Hlb Hgo].
  split; simpl; try reflexivity; try lia.
  - exact Hs.
  - split; vm_compute; discriminate.
  - intros _. vm_compute. discriminate.
  - discriminate.
Qed.

Lemma Inv_setKeys k g : Inv g -> Inv (setKeys k g).
Proof. intros [Hs Hx Hr Hg Hl Hll Hlb Hgo]. split; assumption. Qed.

Lemma Inv_setGameState_live st g :
  livePhase (gameState g) = true -> livePhase st = true ->
  Inv g -> Inv (setGameState st g).
Proof.
  intros Hlive Hst [Hs Hx Hr Hg Hl Hll Hlb Hgo].
  split; simpl; auto.
  intros ->. discriminate.
Qed.

Lemma Inv_handleKeyDown key rnd g : Inv g -> Inv (handleKeyDown key rnd g).
Proof.
  intros HI. unfold handleKeyDown.
  pose proof (Inv_setKeys (<[key := true]> (keysPressed g)) g HI) as HK.
  destruct (isSpace key), (isRestart key), (gameState g) eqn:E;
    try apply Inv_resetGame; try exact HK;
    try (apply Inv_setGameState_live; simpl; try rewrite E; auto).
Qed.

Lemma Inv_handleKeyUp key g : Inv g -> Inv (handleKeyUp key g).
Proof. apply Inv_setKeys. Qed.

Lemma Inv_update rnd g : Inv g -> Inv (update rnd g).
Proof.
  intros HI. destruct (decide (gameState g = playing)) as [Hp|Hp];
    [|now rewrite (update_not_playing _ _ Hp)].
  pose proof HI as [Hs Hx Hr Hg Hl Hll Hlb Hgo].
  assert (H1 : (1 <= lives g)%Z) by (apply Hll; now rewrite Hp).
  pose proof (lives_update rnd g) as HL.
  rewrite (bool_decide_eq_true_2 _ Hp), andb_true_l in HL.
  pose proof (gameState_update rnd g Hp) as HG.
  split.
  - rewrite (paddle_update _ _ Hp), shape_clamped_slid. exact Hs.
  - rewrite (paddle_update _ _ Hp).
    destruct (width_of_shape _ Hs) as (_ & Hw & _).
    pose proof (clampedPaddle_range (slidPaddle (keysPressed g) (paddle g))) as Hc.
    rewrite width_slid, Hw in Hc. apply Hc.
    unfold PADDLE_WIDTH, CANVAS_WIDTH. lra.
  - now apply radius_update.
  - rewrite (bricks_update _ _ Hp), grid_brickLoop. exact Hg.
  - rewrite HL. destruct (fallTick g); lia.
  - rewrite HG, HL.
    destruct (activeBricks (update rnd g) =? 0)%nat; [discriminate|].
    destruct (fallTick g); [|lia].
    destruct (Z.leb_spec (lives g - 1) 0); [discriminate|lia].
  - rewrite HG.
    destruct (activeBricks (update rnd g) =? 0)%nat eqn:E; [discriminate|].
    intros _. now apply Nat.eqb_neq in E.
  - rewrite HG, HL.
    destruct (activeBricks (update rnd g) =? 0)%nat; [discriminate|].
    destruct (fallTick g); [|discriminate].
    destruct (Z.leb_spec (lives g - 1) 0); [lia|discriminate].
Qed.

Lemma Inv_step g e : Inv g -> Inv (step g e).
Proof.
  destruct e; simpl;
    auto using Inv_update, Inv_handleKeyDown, Inv_handleKeyUp.
Qed.

Lemma Inv_run evs g : Inv g -> Inv (run evs g).
Proof.
  revert g. induction evs as [|e evs IH]; intros g HI; simpl; [exact HI|].
  apply IH, Inv_step, HI.
Qed.

Lemma Inv_reachable evs : Inv (run evs initialGame).
Proof. apply Inv_run, Inv_initialGame. Qed.

(** *** A tick on which the ball falls *)

Lemma overlapsPaddle_above b p :
  Ball.y b + Ball.radius b <= Paddle.y p -> overlapsPaddle b p = false.
Proof.
  intros H. unfold overlapsPaddle.
  apply Qltb_ge in H. rewrite H. now rewrite !andb_false_r.
Qed.

Lemma overlapsPaddle_below b p :
  Paddle.y p + Paddle.height p <= Ball.y b - Ball.radius b ->
  overlapsPaddle b p = false.
Proof.
  intros H. unfold overlapsPaddle.
  apply Qltb_ge in H. rewrite H. now rewrite !andb_false_r.
Qed.

Lemma initBricks_above :
  Forall (fun br => Brick.y br + Brick.height br <= gridBottom) initBricks.
Proof.
  apply List.Forall_forall. intros br Hin. apply Qle_bool_iff.
  revert br Hin.
  apply (proj1 (List.forallb_forall
    (fun br => Qle_bool (Brick.y br + Brick.height br) gridBottom) initBricks)).
  vm_compute. reflexivity.
Qed.

Lemma grid_above bs :
  map (Brick.set_active true) bs = initBricks ->
  Forall (fun br => Brick.y br + Brick.height br <= gridBottom) bs.
Proof.
  intros H. pose proof initBricks_above as HA. rewrite <- H in HA.
  exact (proj1 (List.Forall_map (Brick.set_active true)
                  (fun br => Brick.y br + Brick.height br <= gridBottom) bs) HA).
Qed.

Lemma no_hit_under_grid b bs :
  map (Brick.set_active true) bs = initBricks ->
  gridBottom <= Ball.y b - Ball.radius b ->
  Forall (fun y => ~ hits b y) bs.
Proof.
  intros Hg Hb. eapply Forall_impl; [apply (grid_above _ Hg)|].
  intros br Hbr [_ Ho]. unfold overlapsBrick in Ho. cbv beta in Hbr.
  apply andb_prop in Ho as [_ Ho]. apply Qltb_lt in Ho. lra.
Qed.

Lemma paddle_beforeCollisions rnd g :
  paddle (beforeCollisions rnd g) =
  clampedPaddle (slidPaddle (keysPressed g) (paddle g)).
Proof.
  unfold beforeCollisions. now autorewrite with tick.
Qed.

Lemma ball_beforeCollisions rnd g :
  ball (beforeCollisions rnd g) =
  if fallTick g && negb (lives g - 1 <=? 0)%Z
  then resetBall rnd else wallReflect (movedBall (ball g)).
Proof.
  unfold beforeCollisions, fallTick. autorewrite with tick.
  rewrite ball_ballFalls. now autorewrite with tick.
Qed.

Lemma fellBelow_lt b : fellBelow b = true -> CANVAS_HEIGHT < Ball.y b - Ball.radius b.
Proof. apply Qltb_lt. Qed.

(** A tick on which neither collision check fires. *)
Lemma quiet_tick rnd g :
  gameState g = playing ->
  overlapsPaddle (ball (beforeCollisions rnd g))
                 (paddle (beforeCollisions rnd g)) = false ->
  Forall (fun y => ~ hits (ball (beforeCollisions rnd g)) y) (bricks g) ->
  ball (update rnd g) = ball (beforeCollisions rnd g) /\
  bricks (update rnd g) = bricks g /\
  score (update rnd g) = score g /\
  activeBricks (update rnd g) = activeBricks g.
Proof.
  intros Hp Hpad Hno.
  assert (Hbb : ball (beforeBricks rnd g) = ball (beforeCollisions rnd g)).
  { unfold beforeBricks. rewrite ball_checkBallPaddleCollision.
    now rewrite Hpad. }
  pose proof (brickLoop_miss _ (score g) _ Hno) as Hmiss.
  assert (Hbr : bricks (update rnd g) = bricks g).
  { rewrite (bricks_update _ _ Hp), Hbb, Hmiss. reflexivity. }
  split; [|split; [|split]].
  - rewrite (ball_update _ _ Hp), Hbb, Hmiss. reflexivity.
  - exact Hbr.
  - rewrite (score_update _ _ Hp), Hbb, Hmiss. reflexivity.
  - unfold activeBricks. now rewrite Hbr.
Qed.

Lemma gridBottom_on_field : gridBottom <= CANVAS_HEIGHT.
Proof. apply Qle_bool_iff. vm_compute. reflexivity. Qed.

Lemma fallen_under_paddle (y r : Q) :
  CANVAS_HEIGHT < y - r -> CANVAS_HEIGHT - 40 + PADDLE_HEIGHT <= y - r.
Proof. unfold CANVAS_HEIGHT, PADDLE_HEIGHT. lra. Qed.

Lemma fallen_under_grid (y r : Q) :
  CANVAS_HEIGHT < y - r -> gridBottom <= y - r.
Proof. pose proof gridBottom_on_field. lra. Qed.

Lemma resetBall_under_grid rnd :
  gridBottom <= Ball.y (resetBall rnd) - Ball.radius (resetBall rnd).
Proof. apply Qle_bool_iff. vm_compute. reflexivity. Qed.

Lemma resetBall_over_paddle rnd :
  Ball.y (resetBall rnd) + Ball.radius (resetBall rnd) <= CANVAS_HEIGHT - 40.
Proof. apply Qle_bool_iff. vm_compute. reflexivity. Qed.

Lemma fallTick_low g :
  fallTick g = true ->
  CANVAS_HEIGHT < Ball.y (wallReflect (movedBall (ball g)))
                  - Ball.radius (wallReflect (movedBall (ball g))).
Proof.
  unfold fallTick. rewrite ball_wallCollision, ball_moveBall.
  apply fellBelow_lt.
Qed.

Lemma paddle_level rnd g :
  Inv g ->
  Paddle.y (paddle (beforeCollisions rnd g)) = CANVAS_HEIGHT - 40 /\
  Paddle.height (paddle (beforeCollisions rnd g)) = PADDLE_HEIGHT.
Proof.
  intros HI. pose proof (inv_paddle_shape _ HI) as Hs.
  pose proof (shape_clamped_slid (keysPressed g) (paddle g)) as Hsh.
  rewrite Hs, <- (paddle_beforeCollisions rnd) in Hsh.
  apply width_of_shape in Hsh as (Hy & _ & Hh & _). now split.
Qed.

Lemma fallen_ball_clear rnd g b :
  Inv g -> CANVAS_HEIGHT < Ball.y b - Ball.radius b ->
  overlapsPaddle b (paddle (beforeCollisions rnd g)) = false /\
  Forall (fun y => ~ hits b y) (bricks g).
Proof.
  intros HI Hlow. destruct (paddle_level rnd g HI) as [Hy Hh]. split.
  - apply overlapsPaddle_below. rewrite Hy, Hh.
    apply fallen_under_paddle, Hlow.
  - apply no_hit_under_grid; [apply (inv_grid _ HI)|].
    apply fallen_under_grid, Hlow.
Qed.

Lemma respawned_ball_clear rnd g :
  Inv g ->
  overlapsPaddle (resetBall rnd) (paddle (beforeCollisions rnd g)) = false /\
  Forall (fun y => ~ hits (resetBall rnd) y) (bricks g).
Proof.
  intros HI. destruct (paddle_level rnd g HI) as [Hy Hh]. split.
  - apply overlapsPaddle_above. rewrite Hy. apply resetBall_over_paddle.
  - apply no_hit_under_grid; [apply (inv_grid _ HI)|].
    apply resetBall_under_grid.
Qed.

(** On a falling tick neither collision check fires: the fallen ball is
    under the paddle and under the grid, the respawned ball is between
    them. *)
Lemma fall_tick rnd g :
  Inv g -> gameState g = playing -> fallTick g = true ->
  ball (update rnd g) =
    (if (lives g - 1 <=? 0)%Z
     then wallReflect (movedBall (ball g)) else resetBall rnd) /\
  bricks (update rnd g) = bricks g /\
  score (update rnd g) = score g /\
  gameState (update rnd g) =
    (if (lives g - 1 <=? 0)%Z then gameOver else ready).
Proof.
  intros HI Hp Hf.
  pose proof (ball_beforeCollisions rnd g) as Hbc.
  rewrite Hf, andb_true_l in Hbc.
  assert (Hq : overlapsPaddle (ball (beforeCollisions rnd g))
                              (paddle (beforeCollisions rnd g)) = false /\
               Forall (fun y => ~ hits (ball (beforeCollisions rnd g)) y)
                      (bricks g)).
  { rewrite Hbc. destruct (lives g - 1 <=? 0)%Z.
    - apply (fallen_ball_clear rnd g _ HI), fallTick_low, Hf.
    - apply (respawned_ball_clear rnd g HI). }
  destruct Hq as [Hpad Hno].
  destruct (quiet_tick rnd g Hp Hpad Hno) as (Hb & Hbr & Hsc & Hab).
  rewrite Hb, Hbc.
  split; [|split; [|split]].
  - destruct (lives g - 1 <=? 0)%Z; reflexivity.
  - exact Hbr.
  - exact Hsc.
  - rewrite (gameState_update _ _ Hp), Hf, Hab.
    destruct (Nat.eqb_spec (activeBricks g) 0) as [E|E]; [|reflexivity].
    exfalso. apply (inv_live_bricks _ HI); [now rewrite Hp | exact E].
Qed.

Lemma reachable_Inv g : reachable g -> Inv g.
Proof. intros [evs ->]. apply Inv_reachable. Qed.

(** *** Terminal phases *)

Lemma entities_handleKeyUp key g : entities (handleKeyUp key g) = entities g.
Proof. reflexivity. Qed.

Lemma entities_handleKeyDown_terminal key rnd g :
  livePhase (gameState g) = false -> isRestart key = false ->
  entities (handleKeyDown key rnd g) = entities g.
Proof.
  intros Hl Hr. unfold handleKeyDown. rewrite Hr.
  destruct (isSpace key), (gameState g); try discriminate; reflexivity.
Qed.

Lemma entities_step_terminal g e :
  livePhase (gameState g) = false -> isRestartEvent e = false ->
  entities (step g e) = entities g.
Proof.
  intros Hl He. destruct e as [rnd|key rnd|key]; simpl in *.
  - rewrite update_not_playing; [reflexivity|].
    intros E. rewrite E in Hl. discriminate.
  - now apply entities_handleKeyDown_terminal.
  - apply entities_handleKeyUp.
Qed.

Lemma entities_run_terminal evs g :
  livePhase (gameState g) = false ->
  Forall (fun e => isRestartEvent e = false) evs ->
  entities (run evs g) = entities g.
Proof.
  intros Hl Hevs. revert g Hl.
  induction Hevs as [|e evs He _ IH]; intros g Hl; [reflexivity|].
  simpl. pose proof (entities_step_terminal g e Hl He) as Hs.
  rewrite IH; [exact Hs|].
  unfold entities in Hs. injection Hs as Hg _ _ _ _ _. now rewrite Hg.
Qed.

Lemma handleKeyDown_restart key rnd g :
  livePhase (gameState g) = false -> isRestart key = true ->
  handleKeyDown key rnd g =
  resetGame rnd (setKeys (<[key := true]> (keysPressed g)) g).
Proof.
  intros Hl Hr. unfold handleKeyDown. rewrite Hr.
  destruct (isSpace key), (gameState g); try discriminate; reflexivity.
Qed.

Lemma initBricks_all_active :
  Forall (fun br => Brick.active br = true) initBricks.
Proof.
  apply List.Forall_forall.
  apply (proj1 (List.forallb_forall Brick.active initBricks)).
  vm_compute. reflexivity.
Qed.

(** The list of [initBricks] is in row-major order: the brick of row
    [row] and column [col] is at index [row * BRICK_COLS + col]. *)
Lemma initBricks_row_major row col :
  (row < BRICK_ROWS)%nat -> (col < BRICK_COLS)%nat ->
  initBricks !! (row * BRICK_COLS + col)%nat = Some (newBrick row col).
Proof.
  unfold BRICK_ROWS, BRICK_COLS. intros Hr Hc.
  do 6 (destruct row as [|row];
        [do 10 (destruct col as [|col]; [reflexivity|]); lia|]).
  lia.
Qed.

(** *** The paddle contact point *)

Lemma hitPosition_range b p :
  0 < Paddle.width p -> overlapsPaddle b p = true ->
  - (Ball.radius b / Paddle.width p) < hitPosition b p
    < 1 + Ball.radius b / Paddle.width p.
Proof.
  intros Hw Ho. unfold overlapsPaddle in Ho.
  apply andb_prop in Ho as [Ho _]. apply andb_prop in Ho as [Ho _].
  apply andb_prop in Ho as [H1 H2].
  apply Qltb_lt in H1, H2. unfold hitPosition.
  assert (Hn : ~ Paddle.width p == 0) by lra.
  split.
  - apply Qmult_lt_r with (z := Paddle.width p); [exact Hw|].
    field_simplify; [|exact Hn|exact Hn]. lra.
  - apply Qmult_lt_r with (z := Paddle.width p); [exact Hw|].
    field_simplify; [|exact Hn|exact Hn]. lra.
Qed.

End Theory.

(** ** The properties of the specification *)

Section Properties.
Context {M : JSMath}.

(** C1. In every state whose phase is not [playing], [update] changes
    nothing: the whole state, hence ball position and velocity, paddle
    position, every brick's [active] flag, score and lives, is the same
    before and after the tick. *)
Theorem update_frozen_outside_playing rnd g :
  gameState g <> playing -> update rnd g = g.
Proof. apply update_not_playing. Qed.

(** C2, as the code has it.  A tick takes one life exactly when the phase
    is [playing] and the moved ball is wholly under the bottom edge, that
    is when its top-most point [y - radius] is past [CANVAS_HEIGHT];
    otherwise lives are unchanged.  A tick that takes a life leaves the
    [playing] phase, so the same fall is not counted again. *)
Theorem lives_decrement_rule rnd g :
  lives (update rnd g) =
    (if bool_decide (gameState g = playing)
        && Qltb CANVAS_HEIGHT
                (Ball.y (ball g) + Ball.dy (ball g) - Ball.radius (ball g))
     then (lives g - 1)%Z else lives g) /\
  (lives (update rnd g) <> lives g -> gameState (update rnd g) <> playing).
Proof.
  rewrite lives_update, <- fallTick_eq. split; [reflexivity|].
  destruct (decide (gameState g = playing)) as [Hp|Hp].
  - rewrite (bool_decide_eq_true_2 _ Hp), andb_true_l.
    rewrite (gameState_update _ _ Hp).
    destruct (fallTick g); [|congruence]. intros _.
    repeat case_match; discriminate.
  - rewrite (bool_decide_eq_false_2 _ Hp), andb_false_l. congruence.
Qed.

(** C3, as the code has it.  On a falling tick that leaves a life, the
    ball is respawned at the centre of the field with horizontal velocity
    [4] or [-4] according to the random sample and vertical velocity
    [-4], which points up the canvas, and the phase becomes [ready]. *)
Theorem respawn_after_fall rnd g :
  reachable g -> gameState g = playing -> fallTick g = true ->
  (0 < lives g - 1)%Z ->
  lives (update rnd g) = (lives g - 1)%Z /\
  gameState (update rnd g) = ready /\
  Ball.x (ball (update rnd g)) == CANVAS_WIDTH / 2 /\
  Ball.y (ball (update rnd g)) == CANVAS_HEIGHT / 2 /\
  Ball.dx (ball (update rnd g)) == (if Qltb 0.5 rnd then 4 else -4) /\
  Ball.dy (ball (update rnd g)) == -4 /\
  Ball.dy (ball (update rnd g)) < 0.
Proof.
  intros Hr Hp Hf Hl. apply reachable_Inv in Hr.
  destruct (fall_tick rnd g Hr Hp Hf) as (Hb & _ & _ & Hg).
  destruct (Z.leb_spec (lives g - 1) 0) as [E|_]; [lia|].
  rewrite Hb, Hg, lives_update, Hf.
  rewrite (bool_decide_eq_true_2 _ Hp), andb_true_l.
  unfold resetBall. cbn [Ball.x Ball.y Ball.dx Ball.dy].
  repeat split; try reflexivity.
  destruct (Qltb 0.5 rnd); reflexivity.
Qed.

(** C4. In every state of every run, whatever keys were pressed and
    released and however many ticks ran, the paddle's [x] is in
    [[0, CANVAS_WIDTH - PADDLE_WIDTH]]. *)
Theorem paddle_stays_on_field evs :
  0 <= Paddle.x (paddle (run evs initialGame)) <= CANVAS_WIDTH - PADDLE_WIDTH.
Proof. apply inv_paddle_x, Inv_reachable. Qed.

(** C5. The wall reflection and the brick bounce leave [dx² + dy²] as it
    was: a bounce off a brick negates [dy] or negates [dx] and touches
    nothing else. *)
Theorem wall_and_brick_bounces_keep_speed g b brick :
  Ball.speed2 (ball (wallCollision g)) == Ball.speed2 (ball g) /\
  Ball.speed2 (ball (checkBallBrickCollision g)) == Ball.speed2 (ball g) /\
  (bounceOffBrick b brick = Ball.set_dy (- Ball.dy b) b \/
   bounceOffBrick b brick = Ball.set_dx (- Ball.dx b) b) /\
  Ball.speed2 (bounceOffBrick b brick) == Ball.speed2 b.
Proof.
  split; [apply speed2_wallCollision|].
  split; [rewrite ball_checkBallBrickCollision; apply speed2_brickLoop|].
  split; [|apply speed2_bounceOffBrick].
  unfold bounceOffBrick. case_match; auto.
Qed.

(** C6. A tick in the [playing] phase either finds no active brick that
    overlaps the ball and leaves bricks and score alone, or deactivates
    exactly the first brick, in the order of the list, that is active and
    overlaps the ball, as the ball is when the scan starts; it changes no
    other brick, adds that brick's points to the score, and the number of
    active bricks goes down by one. *)
Theorem one_brick_per_tick rnd g :
  gameState g = playing ->
  (Forall (fun y => ~ hits (ball (beforeBricks rnd g)) y) (bricks g) /\
   bricks (update rnd g) = bricks g /\
   score (update rnd g) = score g) \/
  (exists i brick,
     bricks g !! i = Some brick /\
     hits (ball (beforeBricks rnd g)) brick /\
     (forall j y, bricks g !! j = Some y -> (j < i)%nat ->
                  ~ hits (ball (beforeBricks rnd g)) y) /\
     bricks (update rnd g) = <[i := Brick.set_active false brick]> (bricks g) /\
     score (update rnd g) = (score g + Brick.points brick)%Z /\
     S (activeBricks (update rnd g)) = activeBricks g).
Proof.
  intros Hp.
  rewrite (bricks_update _ _ Hp), (score_update _ _ Hp).
  unfold activeBricks at 1. rewrite (bricks_update _ _ Hp).
  rewrite brickLoop_find.
  destruct (list_find (hits (ball (beforeBricks rnd g))) (bricks g))
    as [[i brick]|] eqn:E.
  - right. exists i, brick.
    apply list_find_Some in E as (Hi & Hh & Hfirst).
    repeat split; try assumption; try apply Hh.
    simpl. apply filter_active_off; [exact Hi | apply Hh].
  - left. apply list_find_None in E. auto.
Qed.

Lemma isSpace_not_restart key : isSpace key = true -> isRestart key = false.
Proof.
  unfold isSpace, isRestart. intros H.
  apply orb_prop in H as [H|H]; apply bool_decide_eq_true_1 in H; subst key;
    reflexivity.
Qed.

(** C8. In the phases [gameOver] and [win] a key that is not [r] or [R],
    the space bar among them, going down or up leaves the phase, score,
    lives, paddle, ball and bricks as they are; [r] or [R] going down
    makes the phase [ready], the score 0, the lives 3, the bricks the
    full grid with every brick active, and puts the ball and the paddle
    where they are when the component is mounted. *)
Theorem terminal_phases_only_restart key rnd g :
  reachable g -> gameState g = gameOver \/ gameState g = win ->
  (isRestart key = false -> entities (handleKeyDown key rnd g) = entities g) /\
  (isSpace key = true -> entities (handleKeyDown key rnd g) = entities g) /\
  entities (handleKeyUp key g) = entities g /\
  (isRestart key = true ->
     gameState (handleKeyDown key rnd g) = ready /\
     score (handleKeyDown key rnd g) = 0%Z /\
     lives (handleKeyDown key rnd g) = 3%Z /\
     bricks (handleKeyDown key rnd g) = initBricks /\
     Forall (fun br => Brick.active br = true) (bricks (handleKeyDown key rnd g)) /\
     Ball.x (ball (handleKeyDown key rnd g)) = Ball.x initialBall /\
     Ball.y (ball (handleKeyDown key rnd g)) = Ball.y initialBall /\
     paddle (handleKeyDown key rnd g) = initialPaddle).
Proof.
  intros Hr Hph. apply reachable_Inv in Hr.
  assert (Hl : livePhase (gameState g) = false)
    by (destruct Hph as [-> | ->]; reflexivity).
  split; [now apply entities_handleKeyDown_terminal|].
  split; [intros Hs; apply entities_handleKeyDown_terminal;
          [exact Hl | now apply isSpace_not_restart]|].
  split; [apply entities_handleKeyUp|].
  intros Hk. rewrite (handleKeyDown_restart _ _ _ Hl Hk).
  repeat split; try reflexivity.
  - apply initBricks_all_active.
  - apply (inv_paddle_shape _ Hr).
Qed.

(** C9. When the ball falls with one life left, lives become 0 and the
    phase becomes [gameOver]; after that tick no tick, key press or key
    release other than a restart changes the ball or the paddle, and the
    phase stays [gameOver]. *)
Theorem last_life_fall rnd g later :
  reachable g -> gameState g = playing -> lives g = 1%Z ->
  fallTick g = true ->
  Forall (fun e => isRestartEvent e = false) later ->
  lives (update rnd g) = 0%Z /\
  gameState (update rnd g) = gameOver /\
  ball (run later (update rnd g)) = ball (update rnd g) /\
  paddle (run later (update rnd g)) = paddle (update rnd g) /\
  gameState (run later (update rnd g)) = gameOver /\
  lives (run later (update rnd g)) = 0%Z.
Proof.
  intros Hr Hp Hl Hf Hlater. apply reachable_Inv in Hr.
  destruct (fall_tick rnd g Hr Hp Hf) as (_ & _ & _ & Hg).
  rewrite Hl in Hg. change (1 - 1 <=? 0)%Z with true in Hg.
  assert (Hl' : lives (update rnd g) = 0%Z)
    by (rewrite lives_update, Hf, Hl, (bool_decide_eq_true_2 _ Hp);
        reflexivity).
  assert (He : entities (run later (update rnd g)) = entities (update rnd g))
    by (apply entities_run_terminal; [now rewrite Hg | exact Hlater]).
  unfold entities in He. injection He as E1 _ E3 E4 E5 _.
  rewrite E1, E3, E4, E5. repeat split; assumption || reflexivity.
Qed.

(** C10. In every state of every run, lives are in [[0, 3]]. *)
Theorem lives_in_range evs : (0 <= lives (run evs initialGame) <= 3)%Z.
Proof. apply inv_lives, Inv_reachable. Qed.

(** How lives and phase go together in a run: a game in progress has at
    least one life, and a game that is over has none. *)
Lemma lives_by_phase evs :
  (livePhase (gameState (run evs initialGame)) = true ->
   (1 <= lives (run evs initialGame))%Z) /\
  (gameState (run evs initialGame) = gameOver ->
   lives (run evs initialGame) = 0%Z).
Proof.
  pose proof (Inv_reachable evs) as HI.
  split; [apply (inv_live_lives _ HI) | apply (inv_gameOver _ HI)].
Qed.

End Properties.

(** ** The properties on the concrete runs *)

Lemma reachable_run evs :
  reachable (M := seriesMath) (run (M := seriesMath) evs initialGame).
Proof. now exists evs. Qed.

Ltac closed_facts :=
  vm_compute; repeat split; try reflexivity; try discriminate;
  try (let H := fresh in intros H; apply H; reflexivity).

(** The state of the first ball on frame 91, field by field. *)
Lemma nearBottom_ball :
  Ball.x (ball nearBottom) == 764 /\ Ball.y (ball nearBottom) == 592 /\
  Ball.dx (ball nearBottom) == 4 /\ Ball.dy (ball nearBottom) == 4 /\
  Ball.radius (ball nearBottom) == 8 /\
  Paddle.x (paddle nearBottom) == 340 /\ lives nearBottom = 3%Z.
Proof. closed_facts. Qed.

Lemma update_frozen_witness :
  gameState initialGame <> playing /\
  update (M := seriesMath) 0 initialGame = initialGame.
Proof.
  split; [discriminate|].
  apply (update_frozen_outside_playing (M := seriesMath) 0 initialGame).
  discriminate.
Defined.

(** C2, as the claim words it, fails on the first ball: on frame 92 the
    ball's lowest point [y + radius] goes from the bottom edge to below it,
    and no life is taken. *)
Lemma lives_kept_when_bottom_crosses :
  gameState nearBottom = playing /\
  Ball.y (ball nearBottom) + Ball.radius (ball nearBottom) <= CANVAS_HEIGHT /\
  CANVAS_HEIGHT <
    Ball.y (ball (update (M := seriesMath) 0 nearBottom))
    + Ball.radius (ball (update (M := seriesMath) 0 nearBottom)) /\
  lives (update (M := seriesMath) 0 nearBottom) = lives nearBottom.
Proof. closed_facts. Qed.

Lemma lives_decrement_rule_witness :
  lives (update (M := seriesMath) 0 aboutToFall) <> lives aboutToFall /\
  gameState (update (M := seriesMath) 0 aboutToFall) <> playing.
Proof.
  assert (H : lives (update (M := seriesMath) 0 aboutToFall) <> lives aboutToFall)
    by (vm_compute; discriminate).
  split; [exact H|].
  exact (proj2 (lives_decrement_rule (M := seriesMath) 0 aboutToFall) H).
Defined.

(** C3, as the claim words it, fails on the first ball: frame 96 takes the
    first life, two are left, the phase becomes [ready], and the respawned
    ball's [dy] is not positive. *)
Lemma respawned_ball_goes_up :
  gameState aboutToFall = playing /\
  fallTick aboutToFall = true /\
  (0 < lives (update (M := seriesMath) 0 aboutToFall))%Z /\
  gameState (update (M := seriesMath) 0 aboutToFall) = ready /\
  ~ 0 < Ball.dy (ball (update (M := seriesMath) 0 aboutToFall)).
Proof. closed_facts. Qed.

Lemma respawn_after_fall_witness :
  reachable (M := seriesMath) aboutToFall /\
  gameState aboutToFall = playing /\
  fallTick aboutToFall = true /\
  (0 < lives aboutToFall - 1)%Z /\
  gameState (update (M := seriesMath) 1 aboutToFall) = ready /\
  Ball.dx (ball (update (M := seriesMath) 1 aboutToFall)) == 4 /\
  Ball.dy (ball (update (M := seriesMath) 1 aboutToFall)) == -4.
Proof.
  assert (H1 : reachable (M := seriesMath) aboutToFall) by apply reachable_run.
  assert (H2 : gameState aboutToFall = playing) by (vm_compute; reflexivity).
  assert (H3 : fallTick aboutToFall = true) by (vm_compute; reflexivity).
  assert (H4 : (0 < lives aboutToFall - 1)%Z) by (vm_compute; reflexivity).
  destruct (respawn_after_fall (M := seriesMath) 1 aboutToFall H1 H2 H3 H4)
    as (_ & Hg & _ & _ & Hdx & Hdy & _).
  exact (conj H1 (conj H2 (conj H3 (conj H4 (conj Hg (conj Hdx Hdy)))))).
Defined.

Lemma one_brick_per_tick_witness :
  gameState overTheGap = playing /\
  ((Forall (fun y => ~ hits (ball (beforeBricks (M := seriesMath) 0 overTheGap)) y)
           (bricks overTheGap) /\
    bricks (update (M := seriesMath) 0 overTheGap) = bricks overTheGap /\
    score (update (M := seriesMath) 0 overTheGap) = score overTheGap) \/
   (exists i brick,
      bricks overTheGap !! i = Some brick /\
      hits (ball (beforeBricks (M := seriesMath) 0 overTheGap)) brick /\
      (forall j y, bricks overTheGap !! j = Some y -> (j < i)%nat ->
                   ~ hits (ball (beforeBricks (M := seriesMath) 0 overTheGap)) y) /\
      bricks (update (M := seriesMath) 0 overTheGap)
      = <[i := Brick.set_active false brick]> (bricks overTheGap) /\
      score (update (M := seriesMath) 0 overTheGap)
      = (score overTheGap + Brick.points brick)%Z /\
      S (activeBricks (update (M := seriesMath) 0 overTheGap))
      = activeBricks overTheGap)).
Proof.
  split; [reflexivity|].
  apply (one_brick_per_tick (M := seriesMath) 0 overTheGap). reflexivity.
Defined.

(** The ball over the gap overlaps the bricks of row 5, columns 0 and 1,
    both active; the tick deactivates the one of column 0 only and scores
    its 10 points. *)
Lemma first_of_two_overlapping :
  hits (ball (beforeBricks (M := seriesMath) 0 overTheGap)) (newBrick 5 0) /\
  hits (ball (beforeBricks (M := seriesMath) 0 overTheGap)) (newBrick 5 1) /\
  bricks (update (M := seriesMath) 0 overTheGap)
  = <[50%nat := Brick.set_active false (newBrick 5 0)]> initBricks /\
  score (update (M := seriesMath) 0 overTheGap) = 10%Z /\
  activeBricks (update (M := seriesMath) 0 overTheGap) = 59%nat.
Proof. closed_facts. Qed.

Lemma besideThePaddle_Inv : Inv besideThePaddle.
Proof.
  split; try (vm_compute; reflexivity).
  - split; vm_compute; discriminate.
  - split; vm_compute; discriminate.
  - intros _. vm_compute. discriminate.
  - intros _. vm_compute. discriminate.
  - discriminate.
Qed.

(** C7 at a state.  [besideThePaddle] satisfies what every state of a run
    satisfies and is in the [playing] phase.  When [update] is called on
    it, the ball moves to (728, 556), the paddle stays at 604, the overlap
    test of [checkBallPaddleCollision] succeeds, so its branch runs, and
    [hitPosition] is [31/30], above 1. *)
Theorem hitPosition_past_right_end :
  Inv besideThePaddle /\
  gameState besideThePaddle = playing /\
  overlapsPaddle (ball (beforeCollisions 0 besideThePaddle))
                 (paddle (beforeCollisions 0 besideThePaddle)) = true /\
  Ball.x (ball (beforeCollisions 0 besideThePaddle)) == 728 /\
  Ball.y (ball (beforeCollisions 0 besideThePaddle)) == 556 /\
  Paddle.x (paddle (beforeCollisions 0 besideThePaddle)) == 604 /\
  Paddle.width (paddle (beforeCollisions 0 besideThePaddle)) == 120 /\
  hitPosition (ball (beforeCollisions 0 besideThePaddle))
              (paddle (beforeCollisions 0 besideThePaddle)) == 31 / 30 /\
  ~ hitPosition (ball (beforeCollisions 0 besideThePaddle))
                (paddle (beforeCollisions 0 besideThePaddle)) <= 1.
Proof.
  split; [apply besideThePaddle_Inv|]. closed_facts.
Qed.

Lemma terminal_phases_witness :
  reachable (M := seriesMath) gameIsOver /\
  (gameState gameIsOver = gameOver \/ gameState gameIsOver = win) /\
  isSpace " " = true /\
  entities (handleKeyDown " " 0 gameIsOver) = entities gameIsOver /\
  isRestart "r" = true /\
  gameState (handleKeyDown "r" 0 gameIsOver) = ready /\
  score (handleKeyDown "r" 0 gameIsOver) = 0%Z /\
  lives (handleKeyDown "r" 0 gameIsOver) = 3%Z /\
  paddle (handleKeyDown "r" 0 gameIsOver) = initialPaddle.
Proof.
  assert (H1 : reachable (M := seriesMath) gameIsOver) by apply reachable_run.
  assert (H2 : gameState gameIsOver = gameOver \/ gameState gameIsOver = win)
    by (left; vm_compute; reflexivity).
  destruct (terminal_phases_only_restart (M := seriesMath) " " 0 gameIsOver H1 H2)
    as (_ & Hsp & _ & _).
  destruct (terminal_phases_only_restart (M := seriesMath) "r" 0 gameIsOver H1 H2)
    as (_ & _ & _ & Hre).
  destruct (Hre eq_refl) as (Hg & Hs & Hl & _ & _ & _ & _ & Hp).
  exact (conj H1 (conj H2 (conj eq_refl (conj (Hsp eq_refl)
          (conj eq_refl (conj Hg (conj Hs (conj Hl Hp)))))))).
Defined.

Lemma last_life_fall_witness :
  reachable (M := seriesMath) lastLife /\
  gameState lastLife = playing /\
  lives lastLife = 1%Z /\
  fallTick lastLife = true /\
  Forall (fun e => isRestartEvent e = false) afterTheEnd /\
  lives (update (M := seriesMath) 0 lastLife) = 0%Z /\
  gameState (update (M := seriesMath) 0 lastLife) = gameOver /\
  ball (run (M := seriesMath) afterTheEnd (update (M := seriesMath) 0 lastLife))
  = ball (update (M := seriesMath) 0 lastLife) /\
  paddle (run (M := seriesMath) afterTheEnd (update (M := seriesMath) 0 lastLife))
  = paddle (update (M := seriesMath) 0 lastLife).
Proof.
  assert (H1 : reachable (M := seriesMath) lastLife) by apply reachable_run.
  assert (H2 : gameState lastLife = playing) by (vm_compute; reflexivity).
  assert (H3 : lives lastLife = 1%Z) by (vm_compute; reflexivity).
  assert (H4 : fallTick lastLife = true) by (vm_compute; reflexivity).
  assert (H5 : Forall (fun e => isRestartEvent e = false) afterTheEnd)
    by (repeat constructor).
  destruct (last_life_fall (M := seriesMath) 0 lastLife afterTheEnd H1 H2 H3 H4 H5)
    as (Hl & Hg & Hb & Hp & _).
  exact (conj H1 (conj H2 (conj H3 (conj H4 (conj H5
          (conj Hl (conj Hg (conj Hb Hp)))))))).
Defined.

(** ** Further properties of the code *)

Section Further.
Context {M : JSMath}.

(** *** The brick grid *)

Lemma initBricks_length : length initBricks = (BRICK_ROWS * BRICK_COLS)%nat.
Proof. vm_compute. reflexivity. Qed.

(** X1. [initBricks] builds [BRICK_ROWS * BRICK_COLS] bricks in row-major
    order: the brick of row [row] and column [col] is at index
    [row * BRICK_COLS + col], at [x = 80 col + 35], [y = 35 row + 60], of
    size 70 by 25, active, and worth [(6 - row) * 10] points. *)
Theorem initBricks_layout row col :
  (row < BRICK_ROWS)%nat -> (col < BRICK_COLS)%nat ->
  length initBricks = 60%nat /\
  exists brick,
    initBricks !! (row * BRICK_COLS + col)%nat = Some brick /\
    Brick.x brick == 80 * inject_Z (Z.of_nat col) + 35 /\
    Brick.y brick == 35 * inject_Z (Z.of_nat row) + 60 /\
    Brick.width brick == 70 /\ Brick.height brick == 25 /\
    Brick.active brick = true /\
    Brick.points brick = ((6 - Z.of_nat row) * 10)%Z.
Proof.
  intros Hr Hc. split; [apply initBricks_length|].
  exists (newBrick row col). split; [now apply initBricks_row_major|].
  unfold newBrick, BRICK_WIDTH, BRICK_PADDING, BRICK_OFFSET_LEFT,
    BRICK_HEIGHT, BRICK_OFFSET_TOP, BRICK_ROWS.
  cbn [Brick.x Brick.y Brick.width Brick.height Brick.active Brick.points].
  repeat split; try reflexivity; ring.
Qed.

Lemma initBricks_extent :
  Forall (fun br => 35 <= Brick.x br /\ Brick.x br + Brick.width br <= 825 /\
                    60 <= Brick.y br /\ Brick.y br + Brick.height br <= 260)
         initBricks.
Proof.
  apply List.Forall_forall. intros br Hin.
  assert (H : Qle_bool 35 (Brick.x br)
              && Qle_bool (Brick.x br + Brick.width br) 825
              && Qle_bool 60 (Brick.y br)
              && Qle_bool (Brick.y br + Brick.height br) 260 = true).
  { revert br Hin.
    apply (proj1 (List.forallb_forall
      (fun br => Qle_bool 35 (Brick.x br)
                 && Qle_bool (Brick.x br + Brick.width br) 825
                 && Qle_bool 60 (Brick.y br)
                 && Qle_bool (Brick.y br + Brick.height br) 260) initBricks)).
    vm_compute. reflexivity. }
  rewrite !andb_true_iff, !Qle_bool_iff in H. tauto.
Qed.

(** X2. The grid occupies [x] from 35 to 825 and [y] from 60 to 260: it is
    above the paddle line ([CANVAS_HEIGHT - 40]) and, with [CANVAS_WIDTH]
    800, its last column (column 9, [x] from 755 to 825) reaches past the
    right edge of the canvas. *)
Theorem initBricks_span row :
  (row < BRICK_ROWS)%nat ->
  Forall (fun br => 35 <= Brick.x br /\ Brick.x br + Brick.width br <= 825 /\
                    60 <= Brick.y br /\ Brick.y br + Brick.height br <= 260)
         initBricks /\
  260 < CANVAS_HEIGHT - 40 /\
  exists brick,
    initBricks !! (row * BRICK_COLS + 9)%nat = Some brick /\
    Brick.x brick == 755 /\
    Brick.x brick + Brick.width brick == 825 /\
    CANVAS_WIDTH < Brick.x brick + Brick.width brick.
Proof.
  intros Hr. split; [apply initBricks_extent|]. split; [reflexivity|].
  exists (newBrick row 9).
  split; [apply initBricks_row_major; [exact Hr | unfold BRICK_COLS; lia]|].
  repeat split; reflexivity.
Qed.

Lemma apart_all_pairs :
  forallb (fun i => forallb (fun j =>
      (i =? j)%nat
      || match initBricks !! i, initBricks !! j with
         | Some a, Some b => apart a b
         | _, _ => true
         end) (seq 0 60)) (seq 0 60) = true.
Proof. vm_compute. reflexivity. Qed.

(** X3. No two bricks of the grid overlap: for two different indices the
    rectangles are side by side or one above the other. *)
Theorem initBricks_disjoint i j a b :
  i <> j -> initBricks !! i = Some a -> initBricks !! j = Some b ->
  Brick.x a + Brick.width a <= Brick.x b \/
  Brick.x b + Brick.width b <= Brick.x a \/
  Brick.y a + Brick.height a <= Brick.y b \/
  Brick.y b + Brick.height b <= Brick.y a.
Proof.
  intros Hij Ha Hb.
  assert (Hi : (i < 60)%nat)
    by (apply lookup_lt_Some in Ha; now rewrite initBricks_length in Ha).
  assert (Hj : (j < 60)%nat)
    by (apply lookup_lt_Some in Hb; now rewrite initBricks_length in Hb).
  pose proof apart_all_pairs as H.
  rewrite List.forallb_forall in H.
  specialize (H i (proj2 (List.in_seq 60 0 i) (conj (Nat.le_0_l i) Hi))).
  rewrite List.forallb_forall in H.
  specialize (H j (proj2 (List.in_seq 60 0 j) (conj (Nat.le_0_l j) Hj))).
  rewrite Ha, Hb in H.
  apply orb_prop in H as [H|H]; [apply Nat.eqb_eq in H; contradiction|].
  unfold apart in H. rewrite !orb_true_iff, !Qle_bool_iff in H. tauto.
Qed.

(** *** Bricks and score over ticks and runs *)

(** X4. In every state of every run the paddle has its initial [y],
    width, height and speed, the ball its initial radius, and the bricks
    are the grid of [initBricks] up to their [active] flags: no brick is
    ever moved, resized, re-priced, added or removed. *)
Theorem run_keeps_shapes evs :
  Paddle.y (paddle (run evs initialGame)) = CANVAS_HEIGHT - 40 /\
  Paddle.width (paddle (run evs initialGame)) = PADDLE_WIDTH /\
  Paddle.height (paddle (run evs initialGame)) = PADDLE_HEIGHT /\
  Paddle.speed (paddle (run evs initialGame)) = 8 /\
  Ball.radius (ball (run evs initialGame)) = BALL_RADIUS /\
  map (Brick.set_active true) (bricks (run evs initialGame)) = initBricks /\
  length (bricks (run evs initialGame)) = 60%nat.
Proof.
  pose proof (Inv_reachable evs) as HI.
  destruct (width_of_shape _ (inv_paddle_shape _ HI)) as (Hy & Hw & Hh & Hs).
  repeat split; try assumption.
  - apply (inv_radius _ HI).
  - apply (inv_grid _ HI).
  - rewrite <- (length_map (Brick.set_active true)), (inv_grid _ HI).
    apply initBricks_length.
Qed.

Lemma brickLoop_keeps_inactive b sc bs i brick :
  bs !! i = Some brick -> Brick.active brick = false ->
  (brickLoop b sc bs).2 !! i = Some brick.
Proof.
  intros Hi Ha. rewrite brickLoop_find.
  destruct (list_find (hits b) bs) as [[k hit]|] eqn:E; [|exact Hi].
  apply list_find_Some in E as (Hk & [Hact _] & _). cbn [snd].
  rewrite list_lookup_insert_ne; [exact Hi|].
  intros ->. rewrite Hi in Hk. injection Hk as ->. congruence.
Qed.

Lemma brickLoop_active_le b sc bs :
  (length (List.filter Brick.active (brickLoop b sc bs).2)
   <= length (List.filter Brick.active bs))%nat.
Proof.
  rewrite brickLoop_find.
  destruct (list_find (hits b) bs) as [[k hit]|] eqn:E; [|reflexivity].
  apply list_find_Some in E as (Hk & [Hact _] & _). cbn [snd].
  rewrite <- (filter_active_off _ _ _ Hk Hact). lia.
Qed.

Lemma brickLoop_length b sc bs : length (brickLoop b sc bs).2 = length bs.
Proof.
  rewrite brickLoop_find.
  destruct (list_find (hits b) bs) as [[k hit]|]; [|reflexivity].
  cbn [snd]. apply length_insert.
Qed.

(** X5. [update] never reactivates a brick and never adds or removes one:
    every brick that is inactive before the call is the same brick, still
    inactive, after it; the list keeps its length; and the number of
    active bricks does not grow. *)
Theorem update_never_reactivates rnd g :
  (forall i brick,
     bricks g !! i = Some brick -> Brick.active brick = false ->
     bricks (update rnd g) !! i = Some brick) /\
  length (bricks (update rnd g)) = length (bricks g) /\
  (activeBricks (update rnd g) <= activeBricks g)%nat.
Proof.
  destruct (decide (gameState g = playing)) as [Hp|Hp].
  - unfold activeBricks. rewrite (bricks_update _ _ Hp).
    split; [|split].
    + intros i brick Hi Ha. now apply brickLoop_keeps_inactive.
    + apply brickLoop_length.
    + apply brickLoop_active_le.
  - rewrite (update_not_playing _ _ Hp).
    split; [|split]; [intros i brick Hi _; exact Hi | reflexivity | reflexivity].
Qed.

Lemma brickLoop_points b sc bs :
  ((brickLoop b sc bs).1.2 + activePoints (brickLoop b sc bs).2)%Z
  = (sc + activePoints bs)%Z.
Proof.
  induction bs as [|brick rest IH]; cbn [brickLoop]; [reflexivity|].
  destruct (Brick.active brick) eqn:Ha; cbn [andb].
  - destruct (overlapsBrick b brick).
    + cbn [fst snd activePoints foldr Brick.active Brick.set_active].
      rewrite Ha. fold (activePoints rest). lia.
    + destruct (brickLoop b sc rest) as [[b' sc'] rest'].
      cbn [fst snd] in *. cbn [activePoints foldr]. rewrite Ha.
      fold (activePoints rest) (activePoints rest'). lia.
  - destruct (brickLoop b sc rest) as [[b' sc'] rest'].
    cbn [fst snd] in *. cbn [activePoints foldr]. rewrite Ha.
    fold (activePoints rest) (activePoints rest'). lia.
Qed.

Lemma activePoints_none bs :
  length (List.filter Brick.active bs) = 0%nat -> activePoints bs = 0%Z.
Proof.
  induction bs as [|brick rest IH]; [reflexivity|].
  cbn [List.filter activePoints foldr].
  destruct (Brick.active brick); [discriminate|]. exact IH.
Qed.

Lemma activePoints_bounds bs :
  Forall (fun br => (0 <= Brick.points br)%Z) bs ->
  (0 <= activePoints bs <= activePoints (map (Brick.set_active true) bs))%Z.
Proof.
  induction 1 as [|brick rest Hb _ IH]; [simpl; lia|].
  cbn [map activePoints foldr Brick.active Brick.set_active Brick.points].
  fold (activePoints rest) (activePoints (map (Brick.set_active true) rest)).
  destruct (Brick.active brick); lia.
Qed.

Lemma initBricks_points_nonneg :
  Forall (fun br => (0 <= Brick.points br)%Z) initBricks.
Proof.
  apply List.Forall_forall. intros br Hin. apply Z.leb_le. revert br Hin.
  apply (proj1 (List.forallb_forall
    (fun br => (0 <=? Brick.points br)%Z) initBricks)).
  vm_compute. reflexivity.
Qed.

Lemma grid_points_nonneg bs :
  map (Brick.set_active true) bs = initBricks ->
  Forall (fun br => (0 <= Brick.points br)%Z) bs.
Proof.
  intros H. pose proof initBricks_points_nonneg as HA. rewrite <- H in HA.
  exact (proj1 (List.Forall_map (Brick.set_active true)
                  (fun br => (0 <= Brick.points br)%Z) bs) HA).
Qed.

Lemma totalPoints_value : totalPoints = 2100%Z.
Proof. vm_compute. reflexivity. Qed.

Lemma ScoreInv_initialGame : ScoreInv initialGame.
Proof. split; [reflexivity | discriminate | discriminate]. Qed.

Lemma ScoreInv_resetGame rnd g : ScoreInv (resetGame rnd g).
Proof. split; [reflexivity | discriminate | discriminate]. Qed.

Lemma ScoreInv_setKeys k g : ScoreInv g -> ScoreInv (setKeys k g).
Proof. intros [H1 H2 H3]. split; assumption. Qed.

Lemma ScoreInv_setGameState_live st g :
  livePhase st = true -> ScoreInv g -> ScoreInv (setGameState st g).
Proof.
  intros Hst [H1 H2 H3].
  split; [exact H1 | |]; cbn [gameState setGameState];
    intros ->; discriminate.
Qed.

Lemma ScoreInv_handleKeyDown key rnd g :
  ScoreInv g -> ScoreInv (handleKeyDown key rnd g).
Proof.
  intros HI. unfold handleKeyDown.
  pose proof (ScoreInv_setKeys (<[key := true]> (keysPressed g)) g HI) as HK.
  destruct (isSpace key), (isRestart key), (gameState g);
    try apply ScoreInv_resetGame; try exact HK;
    apply ScoreInv_setGameState_live; solve [reflexivity | exact HK].
Qed.

Lemma ScoreInv_update rnd g : Inv g -> ScoreInv g -> ScoreInv (update rnd g).
Proof.
  intros HI [H1 H2 H3].
  destruct (decide (gameState g = playing)) as [Hp|Hp];
    [|rewrite (update_not_playing _ _ Hp); split; assumption].
  pose proof (gameState_update rnd g Hp) as HG.
  split.
  - rewrite (score_update _ _ Hp), (bricks_update _ _ Hp), brickLoop_points.
    exact H1.
  - intros Hw. rewrite Hw in HG.
    destruct (Nat.eqb_spec (activeBricks (update rnd g)) 0) as [E|_];
      [exact E|].
    repeat case_match; discriminate.
  - intros Hw. rewrite Hw in HG.
    destruct (Nat.eqb_spec (activeBricks (update rnd g)) 0) as [E|_];
      [|repeat case_match; discriminate].
    assert (Hlive : livePhase (gameState g) = true) by now rewrite Hp.
    destruct (fallTick g) eqn:Hf.
    + exfalso. destruct (fall_tick rnd g HI Hp Hf) as (_ & Hbr & _ & _).
      apply (inv_live_bricks _ HI Hlive).
      unfold activeBricks in *. now rewrite <- Hbr.
    + rewrite lives_update, Hf, andb_false_r.
      apply (inv_live_lives _ HI Hlive).
Qed.

Lemma ScoreInv_step g e : Inv g -> ScoreInv g -> ScoreInv (step g e).
Proof.
  intros HI HS. destruct e; cbn [step].
  - now apply ScoreInv_update.
  - now apply ScoreInv_handleKeyDown.
  - unfold handleKeyUp. now apply ScoreInv_setKeys.
Qed.

Lemma ScoreInv_run evs g : Inv g -> ScoreInv g -> ScoreInv (run evs g).
Proof.
  revert g. induction evs as [|e evs IH]; intros g HI HS; [exact HS|].
  cbn [run fold_left]. apply IH; [apply Inv_step, HI | apply ScoreInv_step; assumption].
Qed.

Lemma ScoreInv_reachable evs : ScoreInv (run evs initialGame).
Proof. apply ScoreInv_run; [apply Inv_initialGame | apply ScoreInv_initialGame]. Qed.

(** X6. In every state of every run the score and the points of the bricks
    still active add up to the 2100 points of the full grid: the score is
    the sum of the points of the bricks destroyed since the last restart,
    and it lies in [[0, 2100]]. *)
Theorem score_accounting evs :
  (score (run evs initialGame) + activePoints (bricks (run evs initialGame)))%Z
  = 2100%Z /\
  (0 <= score (run evs initialGame) <= 2100)%Z.
Proof.
  pose proof (sinv_points _ (ScoreInv_reachable evs)) as H.
  rewrite totalPoints_value in H. split; [exact H|].
  pose proof (inv_grid _ (Inv_reachable evs)) as Hg.
  pose proof (activePoints_bounds _ (grid_points_nonneg _ Hg)) as Hb.
  rewrite Hg in Hb. fold totalPoints in Hb. rewrite totalPoints_value in Hb.
  lia.
Qed.

(** X7. A tick in the [playing] phase ends in the [win] phase exactly when
    it leaves no brick active, whatever else happened on the tick. *)
Theorem win_iff_no_brick_left rnd g :
  gameState g = playing ->
  (gameState (update rnd g) = win <-> activeBricks (update rnd g) = 0%nat).
Proof.
  intros Hp. rewrite (gameState_update _ _ Hp).
  destruct (Nat.eqb_spec (activeBricks (update rnd g)) 0) as [E|E].
  - tauto.
  - split; [|contradiction]. repeat case_match; discriminate.
Qed.

(** In a state of a run that is in the [win] phase, no brick is active,
    the score is 2100 and at least one life is left. *)
Lemma win_state evs :
  gameState (run evs initialGame) = win ->
  activeBricks (run evs initialGame) = 0%nat /\
  score (run evs initialGame) = 2100%Z /\
  (1 <= lives (run evs initialGame))%Z.
Proof.
  intros Hw. pose proof (ScoreInv_reachable evs) as [H1 H2 H3].
  split; [auto|]. split; [|auto].
  rewrite totalPoints_value in H1.
  rewrite (activePoints_none _ (H2 Hw)) in H1. lia.
Qed.

Lemma hit_tick rnd g i brick :
  gameState g = playing -> bricks g !! i = Some brick ->
  hits (ball (beforeBricks rnd g)) brick ->
  S (activeBricks (update rnd g)) = activeBricks g.
Proof.
  intros Hp Hi Hh. unfold activeBricks.
  rewrite (bricks_update _ _ Hp), brickLoop_find.
  destruct (list_find (hits (ball (beforeBricks rnd g))) (bricks g))
    as [[k hit]|] eqn:E.
  - apply list_find_Some in E as (Hk & [Hact _] & _). cbn [snd].
    now apply filter_active_off.
  - exfalso. apply list_find_None in E.
    rewrite Forall_lookup in E. exact (E i brick Hi Hh).
Qed.

(** X8. The winning tick.  In a state that satisfies what every state of a
    run satisfies, in the [playing] phase with one brick active, a tick on
    which the ball hits a brick ends in the [win] phase with no brick
    active and the score at 2100; that tick takes no life. *)
Theorem winning_tick rnd g i brick :
  Inv g -> ScoreInv g -> gameState g = playing ->
  activeBricks g = 1%nat ->
  bricks g !! i = Some brick -> hits (ball (beforeBricks rnd g)) brick ->
  gameState (update rnd g) = win /\
  activeBricks (update rnd g) = 0%nat /\
  score (update rnd g) = 2100%Z /\
  lives (update rnd g) = lives g.
Proof.
  intros HI HS Hp H1 Hi Hh.
  pose proof (hit_tick rnd g i brick Hp Hi Hh) as Hc. rewrite H1 in Hc.
  injection Hc as Hc.
  pose proof (gameState_update rnd g Hp) as HG. rewrite Hc in HG.
  cbn [Nat.eqb] in HG.
  split; [exact HG|]. split; [exact Hc|]. split.
  - pose proof (sinv_points _ (ScoreInv_update rnd g HI HS)) as Hpt.
    rewrite totalPoints_value in Hpt.
    unfold activeBricks in Hc. rewrite (activePoints_none _ Hc) in Hpt. lia.
  - rewrite lives_update. destruct (fallTick g) eqn:Hf;
      [|now rewrite andb_false_r].
    exfalso. destruct (fall_tick rnd g HI Hp Hf) as (_ & Hbr & _ & _).
    unfold activeBricks in *. rewrite Hbr in Hc. congruence.
Qed.

(** X9. In every state of every run, lives are 0 exactly in the
    [gameOver] phase. *)
Theorem no_lives_iff_gameOver evs :
  lives (run evs initialGame) = 0%Z <-> gameState (run evs initialGame) = gameOver.
Proof.
  pose proof (Inv_reachable evs) as HI.
  pose proof (ScoreInv_reachable evs) as HS.
  split; [|apply (inv_gameOver _ HI)].
  intros H0.
  destruct (gameState (run evs initialGame)) eqn:E; try reflexivity.
  1-3: pose proof (inv_live_lives _ HI) as Hl; rewrite E in Hl;
       specialize (Hl eq_refl); lia.
  pose proof (sinv_win_lives _ HS E). lia.
Qed.

(** *** The paddle *)

(** X10. When the ball overlaps the paddle, [checkBallPaddleCollision]
    sends it upward ([dy <= 0]), keeps its [x] and radius, and rests it on
    the paddle ([y = paddle.y - radius]), where it no longer overlaps: a
    second call changes nothing. *)
Theorem paddle_bounce_goes_up g :
  overlapsPaddle (ball g) (paddle g) = true ->
  Ball.dy (ball (checkBallPaddleCollision g)) <= 0 /\
  Ball.y (ball (checkBallPaddleCollision g))
  = Paddle.y (paddle g) - Ball.radius (ball g) /\
  Ball.x (ball (checkBallPaddleCollision g)) = Ball.x (ball g) /\
  Ball.radius (ball (checkBallPaddleCollision g)) = Ball.radius (ball g) /\
  overlapsPaddle (ball (checkBallPaddleCollision g))
                 (paddle (checkBallPaddleCollision g)) = false /\
  checkBallPaddleCollision (checkBallPaddleCollision g)
  = checkBallPaddleCollision g.
Proof.
  intros Ho.
  assert (Hb : ball (checkBallPaddleCollision g)
               = bounceOffPaddle (ball g) (paddle g))
    by (rewrite ball_checkBallPaddleCollision; now rewrite Ho).
  assert (Hno : overlapsPaddle (ball (checkBallPaddleCollision g))
                               (paddle (checkBallPaddleCollision g)) = false).
  { rewrite paddle_checkBallPaddleCollision, Hb.
    apply overlapsPaddle_above. unfold bounceOffPaddle.
    cbn [Ball.y Ball.radius Ball.set_y Ball.set_dy Ball.set_dx]. lra. }
  rewrite Hb at 1 2 3 4. unfold bounceOffPaddle at 1 2 3 4.
  cbn [Ball.x Ball.y Ball.dy Ball.radius Ball.set_y Ball.set_dy Ball.set_dx].
  repeat split; try reflexivity; try exact Hno.
  - pose proof (Qabs_nonneg
      (Math_cos ((hitPosition (ball g) (paddle g) - 0.5) * Math_PI * 0.6)
       * Math_sqrt (Ball.dx (ball g) * Ball.dx (ball g)
                    + Ball.dy (ball g) * Ball.dy (ball g)))) as Ha.
    lra.
  - unfold checkBallPaddleCollision at 1. now rewrite Hno.
Qed.

(** X11. Whenever the paddle branch runs, [hitPosition] is strictly between
    [- radius / width] and [1 + radius / width]: the ball's centre is at
    most a radius outside the paddle. *)
Theorem hitPosition_within_margin b p :
  0 < Paddle.width p -> overlapsPaddle b p = true ->
  - (Ball.radius b / Paddle.width p) < hitPosition b p
  /\ hitPosition b p < 1 + Ball.radius b / Paddle.width p.
Proof. apply hitPosition_range. Qed.

Lemma held_insert (k : gmap string bool) key v key' :
  held (<[key := v]> k) key' = if decide (key' = key) then v else held k key'.
Proof.
  with_strategy transparent [held] unfold held.
  destruct (decide (key' = key)) as [->|Hne].
  - now rewrite lookup_insert_eq.
  - now rewrite lookup_insert_ne.
Qed.

Lemma keysPressed_handleKeyDown key rnd g :
  keysPressed (handleKeyDown key rnd g) = <[key := true]> (keysPressed g).
Proof.
  unfold handleKeyDown.
  destruct (isSpace key), (isRestart key), (gameState g); reflexivity.
Qed.

(** X12. The record of held keys: after a key goes down it reads as held,
    after it goes up it reads as not held, no other key's reading changes,
    and a tick does not touch the record. *)
Theorem held_after_key_events key key' rnd g :
  held (keysPressed (handleKeyDown key rnd g)) key'
  = (if decide (key' = key) then true else held (keysPressed g) key') /\
  held (keysPressed (handleKeyUp key g)) key'
  = (if decide (key' = key) then false else held (keysPressed g) key') /\
  held (keysPressed (handleKeyUp key (handleKeyDown key rnd g))) key = false /\
  keysPressed (update rnd g) = keysPressed g.
Proof.
  rewrite keysPressed_handleKeyDown. unfold handleKeyUp.
  cbn [keysPressed setKeys]. rewrite keysPressed_handleKeyDown.
  rewrite !held_insert.
  repeat split; try reflexivity.
  - now destruct (decide (key = key)).
  - apply keysPressed_update.
Qed.

(** *** The phase machine *)

Lemma run_app evs1 evs2 g : run (evs1 ++ evs2) g = run evs2 (run evs1 g).
Proof. unfold run. apply fold_left_app. Qed.

Lemma run_frames_frozen rnds g :
  gameState g <> playing -> run (map Frame rnds) g = g.
Proof.
  intros Hp. induction rnds as [|rnd rnds IH]; [reflexivity|].
  cbn [map run fold_left step]. rewrite (update_not_playing _ _ Hp).
  exact IH.
Qed.

(** X13. In the phases [ready], [playing] and [paused], the space bar
    changes the phase only ([ready] and [paused] to [playing], [playing]
    to [paused]) and any other key going down, [r] and [R] included,
    changes neither the phase nor score, lives, paddle, ball or bricks. *)
Theorem keys_during_play key rnd g :
  livePhase (gameState g) = true ->
  entities (handleKeyDown key rnd g)
  = entities (setGameState
                (if isSpace key
                 then match gameState g with
                      | playing => paused
                      | _ => playing
                      end
                 else gameState g) g).
Proof.
  intros Hl. unfold handleKeyDown, entities.
  destruct (isSpace key), (isRestart key), (gameState g) eqn:E;
    try discriminate;
    cbn [gameState score lives paddle ball bricks setGameState setKeys];
    rewrite ?E; reflexivity.
Qed.

(** X14. Pausing loses nothing: from the [playing] phase, the space bar,
    any number of frames and the space bar again lead back to the
    [playing] phase with score, lives, paddle, ball and bricks as they
    were. *)
Theorem pause_resume_round_trip r1 r2 rnds g :
  gameState g = playing ->
  entities (run (KeyDown " " r1 :: map Frame rnds ++ [KeyDown " " r2]) g)
  = entities g.
Proof.
  intros Hp.
  change (KeyDown " " r1 :: map Frame rnds ++ [KeyDown " " r2])
    with ([KeyDown " " r1] ++ map Frame rnds ++ [KeyDown " " r2]).
  rewrite !run_app. cbn [run fold_left step].
  assert (H1 : handleKeyDown " " r1 g
               = setKeys (<[" "%string := true]> (keysPressed g))
                         (setGameState paused g)).
  { unfold handleKeyDown. rewrite Hp. reflexivity. }
  rewrite H1. fold (run (map Frame rnds)).
  rewrite run_frames_frozen by discriminate.
  unfold handleKeyDown, entities. cbn. now rewrite <- Hp.
Qed.

(** *** Paddle and ball kinematics *)

(** X15. [update], called on a state in the [playing] phase whose paddle
    has the initial width and speed and lies on the field, moves the
    paddle by its speed, 8, in the direction held and stops it at the
    edges: left only gives [max 0 (x - 8)], right only gives
    [min 680 (x + 8)], and with both directions or none held the paddle
    stays where it is. *)
Theorem paddle_follows_keys rnd g :
  gameState g = playing ->
  Paddle.width (paddle g) = PADDLE_WIDTH -> Paddle.speed (paddle g) = 8 ->
  0 <= Paddle.x (paddle g) <= CANVAS_WIDTH - PADDLE_WIDTH ->
  Paddle.x (paddle (update rnd g)) ==
  (let left := held (keysPressed g) "ArrowLeft" || held (keysPressed g) "a" in
   let right := held (keysPressed g) "ArrowRight" || held (keysPressed g) "d" in
   let x := Paddle.x (paddle g) in
   if left && negb right then (if Qltb (x - 8) 0 then 0 else x - 8)
   else if right && negb left then (if Qltb 680 (x + 8) then 680 else x + 8)
   else x).
Proof.
  intros Hp Hw Hs Hx.
  assert (Hw' : Paddle.width (paddle g) == 120) by (rewrite Hw; reflexivity).
  assert (Hs' : Paddle.speed (paddle g) == 8) by (rewrite Hs; reflexivity).
  clear Hw Hs.
  rewrite (paddle_update _ _ Hp). unfold clampedPaddle, slidPaddle.
  cbv zeta.
  destruct (held (keysPressed g) "ArrowLeft" || held (keysPressed g) "a"),
           (held (keysPressed g) "ArrowRight" || held (keysPressed g) "d");
    cbn [andb negb Paddle.x Paddle.width Paddle.speed Paddle.set_x];
    unfold CANVAS_WIDTH, PADDLE_WIDTH in *;
    repeat match goal with
           | |- context [Qltb ?a ?b] =>
               let E := fresh "E" in
               destruct (Qltb a b) eqn:E;
               [apply Qltb_lt in E | apply Qltb_ge in E]
           end;
    cbn [Paddle.x Paddle.width Paddle.speed Paddle.set_x] in *; lra.
Qed.

Lemma wallReflect_inside b :
  0 <= Ball.x b - Ball.radius b -> Ball.x b + Ball.radius b <= CANVAS_WIDTH ->
  0 <= Ball.y b - Ball.radius b -> wallReflect b = b.
Proof.
  intros H0 H1 H2. unfold wallReflect.
  rewrite (proj2 (Qltb_ge _ _) H0), (proj2 (Qltb_ge _ _) H1).
  cbn [orb]. now rewrite (proj2 (Qltb_ge _ _) H2).
Qed.

(** X16. Free flight.  [update], called on a state in the [playing] phase
    that satisfies what every state of a run satisfies, such that the
    moved ball touches no wall and lies wholly between the bottom of the
    brick grid and the top of the paddle, moves the ball by its velocity
    and changes nothing else about it, and leaves bricks, score, lives and
    phase as they were. *)
Theorem free_flight rnd g :
  Inv g -> gameState g = playing ->
  0 <= Ball.x (ball g) + Ball.dx (ball g) - Ball.radius (ball g) ->
  Ball.x (ball g) + Ball.dx (ball g) + Ball.radius (ball g) <= CANVAS_WIDTH ->
  gridBottom <= Ball.y (ball g) + Ball.dy (ball g) - Ball.radius (ball g) ->
  Ball.y (ball g) + Ball.dy (ball g) + Ball.radius (ball g) <= CANVAS_HEIGHT - 40 ->
  ball (update rnd g)
  = Ball.mk (Ball.x (ball g) + Ball.dx (ball g))
            (Ball.y (ball g) + Ball.dy (ball g))
            (Ball.dx (ball g)) (Ball.dy (ball g)) (Ball.radius (ball g)) /\
  bricks (update rnd g) = bricks g /\
  score (update rnd g) = score g /\
  lives (update rnd g) = lives g /\
  gameState (update rnd g) = playing.
Proof.
  intros Hr Hp Hx0 Hx1 Hy0 Hy1.
  pose proof (inv_radius _ Hr) as Hrad.
  assert (Hgb : 0 <= gridBottom) by (apply Qle_bool_iff; vm_compute; reflexivity).
  assert (Hrv : Ball.radius (ball g) == 8) by (rewrite Hrad; reflexivity).
  assert (Hwall : wallReflect (movedBall (ball g)) = movedBall (ball g)).
  { apply wallReflect_inside; unfold movedBall;
      cbn [Ball.x Ball.y Ball.dx Ball.dy Ball.radius Ball.set_x Ball.set_y];
      [exact Hx0 | exact Hx1 | lra]. }
  assert (Hf : fallTick g = false).
  { rewrite fallTick_eq. apply Qltb_ge. unfold CANVAS_HEIGHT in *. lra. }
  pose proof (ball_beforeCollisions rnd g) as Hbc.
  rewrite Hf, andb_false_l, Hwall in Hbc.
  destruct (paddle_level rnd g Hr) as [Hpy _].
  assert (Hpad : overlapsPaddle (ball (beforeCollisions rnd g))
                                (paddle (beforeCollisions rnd g)) = false).
  { rewrite Hbc. apply overlapsPaddle_above. rewrite Hpy. exact Hy1. }
  assert (Hno : Forall (fun y => ~ hits (ball (beforeCollisions rnd g)) y)
                       (bricks g)).
  { rewrite Hbc. apply no_hit_under_grid; [apply (inv_grid _ Hr)|]. exact Hy0. }
  destruct (quiet_tick rnd g Hp Hpad Hno) as (Hb & Hbr & Hsc & Hab).
  rewrite Hb, Hbc. split; [reflexivity|]. split; [exact Hbr|].
  split; [exact Hsc|]. split.
  - rewrite lives_update, Hf. now rewrite andb_false_r.
  - rewrite (gameState_update _ _ Hp), Hf, Hab.
    destruct (Nat.eqb_spec (activeBricks g) 0) as [E|E]; [|reflexivity].
    exfalso. apply (inv_live_bricks _ Hr); [now rewrite Hp | exact E].
Qed.

End Further.

(** ** The loop of the mounted component *)

Section Mounted.
Context {M : JSMath}.

Lemma update_as_seen rnd g : update rnd g = updateSeeing (gameState g) rnd g.
Proof. reflexivity. Qed.

Lemma mountedStep_frame rnd g : mountedStep g (Frame rnd) = g.
Proof. reflexivity. Qed.

(** A mounted run is the run of its key events: its frames change
    nothing.  So every state of the mounted component is a state of a
    run. *)
Lemma mountedRun_is_run evs g :
  mountedRun evs g = run (List.filter (fun e => negb (isFrame e)) evs) g.
Proof.
  unfold mountedRun, run. revert g.
  induction evs as [|e evs IH]; intros g; [reflexivity|].
  cbn [fold_left List.filter].
  destruct e as [rnd|key rnd|key]; cbn [isFrame negb fold_left];
    rewrite ?mountedStep_frame; apply IH.
Qed.

Lemma Inv_mountedRun evs : Inv (mountedRun evs initialGame).
Proof. rewrite mountedRun_is_run. apply Inv_reachable. Qed.




End Mounted.

(** ** The further properties on concrete states *)

Lemma lastBrickLeft_Inv : Inv lastBrickLeft.
Proof.
  split; try (vm_compute; reflexivity).
  - split; vm_compute; discriminate.
  - split; vm_compute; discriminate.
  - intros _. vm_compute. discriminate.
  - intros _. vm_compute. discriminate.
  - discriminate.
Qed.

Lemma lastBrickLeft_ScoreInv : ScoreInv lastBrickLeft.
Proof. split; [vm_compute; reflexivity | discriminate | discriminate]. Qed.

Lemma initBricks_layout_witness :
  (5 < BRICK_ROWS)%nat /\ (9 < BRICK_COLS)%nat /\
  length initBricks = 60%nat /\
  exists brick,
    initBricks !! (5 * BRICK_COLS + 9)%nat = Some brick /\
    Brick.x brick == 80 * inject_Z (Z.of_nat 9) + 35 /\
    Brick.y brick == 35 * inject_Z (Z.of_nat 5) + 60 /\
    Brick.width brick == 70 /\ Brick.height brick == 25 /\
    Brick.active brick = true /\
    Brick.points brick = ((6 - Z.of_nat 5) * 10)%Z.
Proof.
  assert (H1 : (5 < BRICK_ROWS)%nat) by (unfold BRICK_ROWS; lia).
  assert (H2 : (9 < BRICK_COLS)%nat) by (unfold BRICK_COLS; lia).
  exact (conj H1 (conj H2 (initBricks_layout 5 9 H1 H2))).
Defined.

Lemma initBricks_span_witness :
  (0 < BRICK_ROWS)%nat /\
  exists brick,
    initBricks !! (0 * BRICK_COLS + 9)%nat = Some brick /\
    Brick.x brick == 755 /\
    Brick.x brick + Brick.width brick == 825 /\
    CANVAS_WIDTH < Brick.x brick + Brick.width brick.
Proof.
  assert (H1 : (0 < BRICK_ROWS)%nat) by (unfold BRICK_ROWS; lia).
  exact (conj H1 (proj2 (proj2 (initBricks_span 0 H1)))).
Defined.

Lemma initBricks_disjoint_witness :
  0%nat <> 1%nat /\
  initBricks !! 0%nat = Some (newBrick 0 0) /\
  initBricks !! 1%nat = Some (newBrick 0 1) /\
  (Brick.x (newBrick 0 0) + Brick.width (newBrick 0 0) <= Brick.x (newBrick 0 1) \/
   Brick.x (newBrick 0 1) + Brick.width (newBrick 0 1) <= Brick.x (newBrick 0 0) \/
   Brick.y (newBrick 0 0) + Brick.height (newBrick 0 0) <= Brick.y (newBrick 0 1) \/
   Brick.y (newBrick 0 1) + Brick.height (newBrick 0 1) <= Brick.y (newBrick 0 0)).
Proof.
  assert (H1 : 0%nat <> 1%nat) by discriminate.
  assert (H2 : initBricks !! 0%nat = Some (newBrick 0 0)) by reflexivity.
  assert (H3 : initBricks !! 1%nat = Some (newBrick 0 1)) by reflexivity.
  exact (conj H1 (conj H2 (conj H3
           (initBricks_disjoint 0 1 (newBrick 0 0) (newBrick 0 1) H1 H2 H3)))).
Defined.

Lemma update_never_reactivates_witness :
  bricks besideThePaddle !! 55%nat
  = Some (Brick.set_active false (newBrick 5 5)) /\
  Brick.active (Brick.set_active false (newBrick 5 5)) = false /\
  bricks (update (M := seriesMath) 0 besideThePaddle) !! 55%nat
  = Some (Brick.set_active false (newBrick 5 5)) /\
  length (bricks (update (M := seriesMath) 0 besideThePaddle))
  = length (bricks besideThePaddle) /\
  (activeBricks (update (M := seriesMath) 0 besideThePaddle)
   <= activeBricks besideThePaddle)%nat.
Proof.
  assert (H1 : bricks besideThePaddle !! 55%nat
               = Some (Brick.set_active false (newBrick 5 5)))
    by reflexivity.
  assert (H2 : Brick.active (Brick.set_active false (newBrick 5 5)) = false)
    by reflexivity.
  destruct (update_never_reactivates (M := seriesMath) 0 besideThePaddle)
    as (Hk & Hlen & Hle).
  exact (conj H1 (conj H2 (conj (Hk 55%nat _ H1 H2) (conj Hlen Hle)))).
Defined.

Lemma win_iff_no_brick_left_witness :
  gameState lastBrickLeft = playing /\
  (gameState (update (M := seriesMath) 0 lastBrickLeft) = win
   <-> activeBricks (update (M := seriesMath) 0 lastBrickLeft) = 0%nat).
Proof.
  exact (conj eq_refl
           (win_iff_no_brick_left (M := seriesMath) 0 lastBrickLeft eq_refl)).
Defined.

Lemma winning_tick_witness :
  Inv lastBrickLeft /\ ScoreInv lastBrickLeft /\
  gameState lastBrickLeft = playing /\
  activeBricks lastBrickLeft = 1%nat /\
  bricks lastBrickLeft !! 50%nat = Some (newBrick 5 0) /\
  hits (ball (beforeBricks (M := seriesMath) 0 lastBrickLeft)) (newBrick 5 0) /\
  gameState (update (M := seriesMath) 0 lastBrickLeft) = win /\
  activeBricks (update (M := seriesMath) 0 lastBrickLeft) = 0%nat /\
  score (update (M := seriesMath) 0 lastBrickLeft) = 2100%Z /\
  lives (update (M := seriesMath) 0 lastBrickLeft) = lives lastBrickLeft.
Proof.
  assert (H4 : activeBricks lastBrickLeft = 1%nat) by (vm_compute; reflexivity).
  assert (H5 : bricks lastBrickLeft !! 50%nat = Some (newBrick 5 0))
    by (vm_compute; reflexivity).
  assert (H6 : hits (ball (beforeBricks (M := seriesMath) 0 lastBrickLeft))
                    (newBrick 5 0))
    by (split; vm_compute; reflexivity).
  exact (conj lastBrickLeft_Inv (conj lastBrickLeft_ScoreInv (conj eq_refl
          (conj H4 (conj H5 (conj H6
            (winning_tick (M := seriesMath) 0 lastBrickLeft 50 (newBrick 5 0)
               lastBrickLeft_Inv lastBrickLeft_ScoreInv eq_refl H4 H5 H6))))))).
Defined.

Lemma paddle_bounce_goes_up_witness :
  overlapsPaddle (ball atThePaddle) (paddle atThePaddle) = true /\
  Ball.dy (ball (checkBallPaddleCollision (M := seriesMath) atThePaddle)) <= 0 /\
  Ball.y (ball (checkBallPaddleCollision (M := seriesMath) atThePaddle))
  = Paddle.y (paddle atThePaddle) - Ball.radius (ball atThePaddle).
Proof.
  assert (H1 : overlapsPaddle (ball atThePaddle) (paddle atThePaddle) = true)
    by (vm_compute; reflexivity).
  destruct (paddle_bounce_goes_up (M := seriesMath) atThePaddle H1)
    as (H2 & H3 & _).
  exact (conj H1 (conj H2 H3)).
Defined.

Lemma hitPosition_within_margin_witness :
  0 < Paddle.width (paddle atThePaddle) /\
  overlapsPaddle (ball atThePaddle) (paddle atThePaddle) = true /\
  - (Ball.radius (ball atThePaddle) / Paddle.width (paddle atThePaddle))
  < hitPosition (ball atThePaddle) (paddle atThePaddle) /\
  hitPosition (ball atThePaddle) (paddle atThePaddle)
  < 1 + Ball.radius (ball atThePaddle) / Paddle.width (paddle atThePaddle).
Proof.
  assert (H1 : 0 < Paddle.width (paddle atThePaddle))
    by (vm_compute; reflexivity).
  assert (H2 : overlapsPaddle (ball atThePaddle) (paddle atThePaddle) = true)
    by (vm_compute; reflexivity).
  exact (conj H1 (conj H2
           (hitPosition_within_margin (ball atThePaddle) (paddle atThePaddle)
              H1 H2))).
Defined.

Lemma keys_during_play_witness :
  livePhase (gameState initialGame) = true /\
  entities (handleKeyDown "r" 0 initialGame) = entities initialGame /\
  entities (handleKeyDown " " 0 initialGame)
  = entities (setGameState playing initialGame).
Proof.
  exact (conj eq_refl
          (conj (keys_during_play "r" 0 initialGame eq_refl)
                (keys_during_play " " 0 initialGame eq_refl))).
Defined.

Lemma pause_resume_round_trip_witness :
  gameState midFlight = playing /\
  entities (run (M := seriesMath)
              (KeyDown " " 0 :: map Frame [0; 1; 0] ++ [KeyDown " " 1]) midFlight)
  = entities midFlight.
Proof.
  assert (H1 : gameState midFlight = playing) by (vm_compute; reflexivity).
  exact (conj H1
           (pause_resume_round_trip (M := seriesMath) 0 1 [0; 1; 0] midFlight H1)).
Defined.

Lemma paddle_follows_keys_witness :
  gameState rightHeld = playing /\
  Paddle.width (paddle rightHeld) = PADDLE_WIDTH /\
  Paddle.speed (paddle rightHeld) = 8 /\
  0 <= Paddle.x (paddle rightHeld) <= CANVAS_WIDTH - PADDLE_WIDTH /\
  Paddle.x (paddle rightHeld) == 340 /\
  Paddle.x (paddle (update (M := seriesMath) 0 rightHeld)) == 348.
Proof.
  assert (H1 : gameState rightHeld = playing) by reflexivity.
  assert (H2 : Paddle.width (paddle rightHeld) = PADDLE_WIDTH) by reflexivity.
  assert (H3 : Paddle.speed (paddle rightHeld) = 8) by reflexivity.
  assert (H4 : 0 <= Paddle.x (paddle rightHeld) <= CANVAS_WIDTH - PADDLE_WIDTH)
    by (split; vm_compute; discriminate).
  assert (H5 : Paddle.x (paddle rightHeld) == 340) by (vm_compute; reflexivity).
  pose proof (paddle_follows_keys (M := seriesMath) 0 rightHeld H1 H2 H3 H4) as H.
  assert (H6 : Paddle.x (paddle (update (M := seriesMath) 0 rightHeld)) == 348).
  { rewrite H. vm_compute. reflexivity. }
  exact (conj H1 (conj H2 (conj H3 (conj H4 (conj H5 H6))))).
Defined.

Lemma justStarted_Inv : Inv justStarted.
Proof. apply Inv_handleKeyDown, Inv_initialGame. Qed.

Lemma free_flight_witness :
  Inv justStarted /\
  gameState justStarted = playing /\
  Ball.x (ball (update (M := seriesMath) 0 justStarted))
  = Ball.x (ball justStarted) + Ball.dx (ball justStarted) /\
  Ball.y (ball (update (M := seriesMath) 0 justStarted))
  = Ball.y (ball justStarted) + Ball.dy (ball justStarted) /\
  gameState (update (M := seriesMath) 0 justStarted) = playing.
Proof.
  assert (H2 : gameState justStarted = playing) by reflexivity.
  assert (H3 : 0 <= Ball.x (ball justStarted) + Ball.dx (ball justStarted)
                    - Ball.radius (ball justStarted))
    by (vm_compute; discriminate).
  assert (H4 : Ball.x (ball justStarted) + Ball.dx (ball justStarted)
               + Ball.radius (ball justStarted) <= CANVAS_WIDTH)
    by (vm_compute; discriminate).
  assert (H5 : gridBottom <= Ball.y (ball justStarted) + Ball.dy (ball justStarted)
                             - Ball.radius (ball justStarted))
    by (vm_compute; discriminate).
  assert (H6 : Ball.y (ball justStarted) + Ball.dy (ball justStarted)
               + Ball.radius (ball justStarted) <= CANVAS_HEIGHT - 40)
    by (vm_compute; discriminate).
  destruct (free_flight (M := seriesMath) 0 justStarted
              justStarted_Inv H2 H3 H4 H5 H6)
    as (Hb & _ & _ & _ & Hg).
  refine (conj justStarted_Inv (conj H2 (conj _ (conj _ Hg)))).
  - exact (f_equal Ball.x Hb).
  - exact (f_equal Ball.y Hb).
Defined.
